(** * BSE Dummy Trading App: the order and portfolio ledger of [DT.py]

    A shallow embedding of the trading logic of [src/DT.py]: the session
    state (cash balance and holdings), the three persisted files, the
    "Execute Trade" button handler (market and limit branches), the
    settlement sweep [process_limit_orders] and the "Reset Portfolio"
    handler.

    Modelling conventions.
    - Share quantities are Python [int]s: [Z].
    - Prices and the cash balance are Python [float]s.  They are modelled
      as exact rationals [Q]; comparisons are the decidable [Qle_bool]
      and arithmetic identities are stated up to [Qeq] ([==]).  Rounding
      of binary64 arithmetic is outside this model.
    - [st.session_state.portfolio] is a [dict] keyed by ticker: a
      [gmap string Position.t]; [dict.get] with a default is [default],
      item assignment is [insert], [del] is [delete] and raises
      [KeyError] on a missing key.
    - Each file is an [option]: [None] when the file does not exist.
    - [st.toast] calls are collected as the list of messages shown.
    - Python exceptions the arithmetic and the dictionary can raise
      ([ZeroDivisionError], [KeyError]) are explicit results. *)

From Stdlib Require Import ZArith QArith Qfield Lqa Lia.
From stdpp Require Import gmap strings list fin_maps.

Local Open Scope Z_scope.

(** ** Data model *)

(** The "Action" radio: ["Buy"] / ["Sell"] (lower-cased in stored orders). *)
Inductive action := Buy | Sell.

(** The "Order Type" radio. *)
Inductive order_type := Limit | Market.

#[global] Instance action_eq_dec : EqDecision action.
Proof. solve_decision. Defined.

(** A holdings entry [{"qty": _, "avg_price": _}]. *)
Module Position.
Record t := mk { qty : Z; avg_price : Q }.
End Position.

(** A pending limit order
    [{"ticker": _, "action": _, "qty": _, "target_price": _}]. *)
Module Order.
Record t := mk { ticker : string; action_ : action; qty : Z; target_price : Q }.
End Order.

(** Session state together with the three files of the ledger store. *)
Record world := World {
  portfolio : gmap string Position.t;          (* st.session_state.portfolio *)
  balance : Q;                                 (* st.session_state.balance *)
  PORTFOLIO_FILE : option (gmap string Position.t);
  BALANCE_FILE : option Q;
  LIMIT_ORDER_FILE : option (list Order.t)
}.

Inductive exn := ZeroDivisionError | KeyError (key : string).

(** Messages passed to [st.toast]. *)
Inductive toast :=
| ToastLimitExecuted (a : action) (qty : Z) (ticker : string) (ltp : Q)
| ToastBought (qty : Z) (symbol : string) (ltp : Q)
| ToastSold (qty : Z) (symbol : string) (ltp : Q)
| ToastInsufficientBalance
| ToastNotEnoughShares
| ToastNoValidPrice
| ToastLimitPlaced (a : action) (qty : Z) (symbol : string) (target_price : Q)
| ToastPortfolioReset.

(** ** Numeric helpers *)

(** [x > y] on floats. *)
Definition Qgt_bool (x y : Q) : bool := negb (Qle_bool x y).

(** [n * x] with [n] an [int] and [x] a [float]. *)
Definition Zmulq (n : Z) (x : Q) : Q := (inject_Z n * x)%Q.

(** [x / n]: true division, raising on a zero divisor. *)
Definition truediv (x : Q) (n : Z) : exn + Q :=
  if Z.eqb n 0 then inl ZeroDivisionError else inr (x / inject_Z n)%Q.

(** ** Persistence helpers *)

Definition set_session (p : gmap string Position.t) (b : Q) (w : world) : world :=
  World p b (PORTFOLIO_FILE w) (BALANCE_FILE w) (LIMIT_ORDER_FILE w).

Definition save_session (w : world) : world :=
  World (portfolio w) (balance w) (Some (portfolio w)) (Some (balance w))
        (LIMIT_ORDER_FILE w).

Definition load_limit_orders (w : world) : list Order.t :=
  match LIMIT_ORDER_FILE w with
  | Some orders => orders
  | None => []
  end.

Definition save_limit_orders (orders : list Order.t) (w : world) : world :=
  World (portfolio w) (balance w) (PORTFOLIO_FILE w) (BALANCE_FILE w) (Some orders).

(** [portfolio.get(ticker, {"qty": 0, "avg_price": 0})] *)
Definition holding (ticker : string) (w : world) : Position.t :=
  default (Position.mk 0 0%Q) (portfolio w !! ticker).

(** [del st.session_state.portfolio[ticker]] *)
Definition del_position (ticker : string) (w : world) : exn + gmap string Position.t :=
  match portfolio w !! ticker with
  | Some _ => inr (delete ticker (portfolio w))
  | None => inl (KeyError ticker)
  end.

(** ** The "Execute Trade" button handler (trade tab) *)

(** What a handler leaves behind: the world, the toasts shown and the
    exception that ended it, if any. *)
Record outcome := Outcome {
  final : world;
  shown : list toast;
  raised : option exn
}.

Definition execute_trade (symbol : string) (ltp : Q) (qty : Z) (act : action)
    (ot : order_type) (target_price : Q) (w : world) : outcome :=
  (* if not ltp or ltp <= 0 *)
  if Qeq_bool ltp 0 || Qle_bool ltp 0 then Outcome w [ToastNoValidPrice] None
  else
    match ot with
    | Limit =>
        let orders := load_limit_orders w in
        Outcome
          (save_limit_orders (orders ++ [Order.mk symbol act qty target_price]) w)
          [ToastLimitPlaced act qty symbol target_price] None
    | Market =>
        let holdings := holding symbol w in
        match act with
        | Buy =>
            let cost := Zmulq qty ltp in
            if Qgt_bool cost (balance w) then Outcome w [ToastInsufficientBalance] None
            else
              let new_qty := Position.qty holdings + qty in
              match truediv (Zmulq (Position.qty holdings) (Position.avg_price holdings)
                             + Zmulq qty ltp)%Q new_qty with
              | inl e => Outcome w [] (Some e)
              | inr new_avg =>
                  Outcome
                    (save_session
                       (set_session (<[symbol := Position.mk new_qty new_avg]> (portfolio w))
                                    (balance w - cost)%Q w))
                    [ToastBought qty symbol ltp] None
              end
        | Sell =>
            if Z.gtb qty (Position.qty holdings) then Outcome w [ToastNotEnoughShares] None
            else
              (* holdings["qty"] -= qty *)
              let holdings := Position.mk (Position.qty holdings - qty)
                                          (Position.avg_price holdings) in
              match (if Z.eqb (Position.qty holdings) 0 then del_position symbol w
                     else inr (<[symbol := holdings]> (portfolio w))) with
              | inl e => Outcome w [] (Some e)
              | inr pf =>
                  Outcome
                    (save_session (set_session pf (balance w + Zmulq qty ltp)%Q w))
                    [ToastSold qty symbol ltp] None
              end
        end
    end.

(** ** The settlement sweep: [process_limit_orders] *)

(** The variables the loop of [process_limit_orders] carries. *)
Record sweep := Sweep {
  session : world;
  remaining : list Order.t;
  changed : bool;
  toasted : list toast
}.

(** [remaining.append(order)] *)
Definition keep_pending (order : Order.t) (s : sweep) : sweep :=
  Sweep (session s) (remaining s ++ [order]) (changed s) (toasted s).

(** The limit condition of lines 175-176. *)
Definition condition_met (act : action) (ltp target_price : Q) : bool :=
  (bool_decide (act = Buy) && Qle_bool ltp target_price)
  || (bool_decide (act = Sell) && Qle_bool target_price ltp).

(** One iteration of the [for order in orders] loop; [ltp] is what
    [stock.info.get("regularMarketPrice", None)] returned for the order. *)
Definition process_order (order : Order.t) (ltp : option Q) (s : sweep) : exn + sweep :=
  let ticker := Order.ticker order in
  let qty := Order.qty order in
  let act := Order.action_ order in
  let target_price := Order.target_price order in
  let w := session s in
  match ltp with
  | None => inr (keep_pending order s)
  | Some ltp =>
      if condition_met act ltp target_price then
        let p := holding ticker w in
        match act with
        | Buy =>
            let cost := Zmulq qty ltp in
            if Qle_bool cost (balance w) then
              let new_qty := Position.qty p + qty in
              match truediv (Zmulq (Position.qty p) (Position.avg_price p)
                             + Zmulq qty ltp)%Q new_qty with
              | inl e => inl e
              | inr new_avg =>
                  inr (Sweep
                         (set_session (<[ticker := Position.mk new_qty new_avg]> (portfolio w))
                                      (balance w - cost)%Q w)
                         (remaining s) true
                         (toasted s ++ [ToastLimitExecuted Buy qty ticker ltp]))
              end
            else inr (keep_pending order s)
        | Sell =>
            if Z.geb (Position.qty p) qty then
              (* p["qty"] -= qty *)
              let p := Position.mk (Position.qty p - qty) (Position.avg_price p) in
              match (if Z.gtb (Position.qty p) 0 then inr (<[ticker := p]> (portfolio w))
                     else del_position ticker w) with
              | inl e => inl e
              | inr pf =>
                  inr (Sweep
                         (set_session pf (balance w + Zmulq qty ltp)%Q w)
                         (remaining s) true
                         (toasted s ++ [ToastLimitExecuted Sell qty ticker ltp]))
              end
            else inr (keep_pending order s)
        end
      else inr (keep_pending order s)
  end.

(** The price source as the sweep sees it: [feed i ticker] is the quote
    returned by the [i]-th lookup of the sweep (one lookup per order). *)
Definition price_feed := nat → string → option Q.

(** The loop itself; an exception leaves the loop with the variables as
    they were when it was raised. *)
Fixpoint for_orders (feed : price_feed) (i : nat) (orders : list Order.t) (s : sweep)
    : sweep * option exn :=
  match orders with
  | [] => (s, None)
  | order :: rest =>
      match process_order order (feed i (Order.ticker order)) s with
      | inl e => (s, Some e)
      | inr s' => for_orders feed (S i) rest s'
      end
  end.

Definition process_limit_orders (feed : price_feed) (w : world) : outcome * option bool :=
  let orders := load_limit_orders w in
  match for_orders feed 0%nat orders (Sweep w [] false []) with
  | (s, Some e) => (Outcome (session s) (toasted s) (Some e), None)
  | (s, None) =>
      let w1 := if changed s then save_session (session s) else session s in
      (Outcome (save_limit_orders (remaining s) w1) (toasted s) None, Some (changed s))
  end.

(** ** The "Reset Portfolio" button handler *)

Definition reset_portfolio (w : world) : outcome :=
  (* portfolio = {}; balance = 1000000.0; save_session(); the three files removed *)
  let w1 := save_session (set_session ∅ 1000000%Q w) in
  Outcome (World (portfolio w1) (balance w1) None None None) [ToastPortfolioReset] None.

(** ** Sessions: sequences of button clicks *)

Inductive event :=
| ExecuteTrade (symbol : string) (ltp : Q) (qty : Z) (act : action)
               (ot : order_type) (target_price : Q)
| ExecutePending (feed : price_feed)
| ResetPortfolio.

(** The "Execute Pending Limit Orders" button is only drawn when the
    pending list is not empty (line 274). *)
Definition handle (ev : event) (w : world) : outcome :=
  match ev with
  | ExecuteTrade symbol ltp qty act ot target_price =>
      execute_trade symbol ltp qty act ot target_price w
  | ExecutePending feed =>
      match load_limit_orders w with
      | [] => Outcome w [] None
      | _ :: _ => fst (process_limit_orders feed w)
      end
  | ResetPortfolio => reset_portfolio w
  end.

(** An exception ends the handler, not the session: the next click finds
    the world as the handler left it. *)
Fixpoint run (evs : list event) (w : world) : world * list toast :=
  match evs with
  | [] => (w, [])
  | ev :: rest =>
      let o := handle ev w in
      let '(w', ts) := run rest (final o) in
      (w', shown o ++ ts)
  end.

(** The world of a fresh installation: no files, the default balance. *)
Definition fresh : world := World ∅ 1000000%Q None None None.

Definition const_feed (quotes : list (string * Q)) : price_feed :=
  fun _ ticker => snd <$> List.find (fun q => String.eqb (fst q) ticker) quotes.

(** ** Executions

    A buy or a sell has been executed when the handler announced it: the
    trade tab shows "Bought"/"Sold", the sweep shows "Executed BUY"/"Executed
    SELL".  [buys w symbol q p w'] relates the session before and after an
    executed buy of [q] shares of [symbol] at price [p], on either path. *)

Definition market_fill (act : action) (w : world) (symbol : string) (q : Z) (p : Q)
    (w' : world) : Prop :=
  ∃ target_price,
    execute_trade symbol p q act Market target_price w
    = Outcome w' [match act with Buy => ToastBought q symbol p
                                | Sell => ToastSold q symbol p end] None.

Definition limit_fill (act : action) (w : world) (symbol : string) (q : Z) (p : Q)
    (w' : world) : Prop :=
  ∃ target_price s s',
    session s = w ∧ session s' = w' ∧
    process_order (Order.mk symbol act q target_price) (Some p) s = inr s' ∧
    toasted s' = toasted s ++ [ToastLimitExecuted act q symbol p].

Definition buys (w : world) (symbol : string) (q : Z) (p : Q) (w' : world) : Prop :=
  market_fill Buy w symbol q p w' ∨ limit_fill Buy w symbol q p w'.

Definition sells (w : world) (symbol : string) (q : Z) (p : Q) (w' : world) : Prop :=
  market_fill Sell w symbol q p w' ∨ limit_fill Sell w symbol q p w'.

(** The guards of one sweep iteration, collected: the order is executed
    exactly when a quote is there, the limit condition holds and the
    ledger check passes. *)
Definition fillable (order : Order.t) (ltp : option Q) (w : world) : bool :=
  match ltp with
  | None => false
  | Some ltp =>
      condition_met (Order.action_ order) ltp (Order.target_price order)
      && match Order.action_ order with
         | Buy => Qle_bool (Zmulq (Order.qty order) ltp) (balance w)
         | Sell => Z.geb (Position.qty (holding (Order.ticker order) w)) (Order.qty order)
         end
  end.

(** ** Well-formedness *)

(** Every stored position has a positive quantity. *)
Definition holdings_ok (w : world) : Prop :=
  map_Forall (fun _ pos => 0 < Position.qty pos) (portfolio w).

(** Every pending order has the quantity the "Quantity" input can deliver
    ([min_value=1], line 434). *)
Definition book_ok (w : world) : Prop :=
  Forall (fun order => 1 <= Order.qty order) (load_limit_orders w).

(** Quotes are positive prices. *)
Definition feed_ok (feed : price_feed) : Prop :=
  ∀ i ticker p, feed i ticker = Some p → (0 < p)%Q.

(** What the widgets of the trade tab can deliver ([min_value=1] for the
    quantity, [min_value=0.0] for the target price) and what the price
    source delivers to a sweep. *)
Definition valid_event (ev : event) : Prop :=
  match ev with
  | ExecuteTrade _ _ qty _ _ target_price => 1 <= qty ∧ (0 <= target_price)%Q
  | ExecutePending feed => feed_ok feed
  | ResetPortfolio => True
  end.

(** Cash moved by the executions a list of toasts announces. *)
Definition cash_flow (t : toast) : Q :=
  match t with
  | ToastLimitExecuted Buy q _ p | ToastBought q _ p => (- Zmulq q p)%Q
  | ToastLimitExecuted Sell q _ p | ToastSold q _ p => Zmulq q p
  | _ => 0%Q
  end.

Definition net_cash (ts : list toast) : Q :=
  foldr (fun t acc => (cash_flow t + acc)%Q) 0%Q ts.

(** The buys a list of toasts announces, as (quantity, price) pairs. *)
Definition buy_fills (ts : list toast) : list (Z * Q) :=
  omap (fun t => match t with
                 | ToastLimitExecuted Buy q _ p | ToastBought q _ p => Some (q, p)
                 | _ => None
                 end) ts.

Definition is_sell_fill (t : toast) : bool :=
  match t with
  | ToastLimitExecuted Sell _ _ _ | ToastSold _ _ _ => true
  | _ => false
  end.

Definition total_cost (fills : list (Z * Q)) : Q :=
  foldr (fun f acc => (Zmulq (fst f) (snd f) + acc)%Q) 0%Q fills.

Definition is_reset (ev : event) : bool :=
  match ev with ResetPortfolio => true | _ => false end.

(** The orders of a sweep with the quotes looked up for them, the first
    lookup being the [i]-th. *)
Fixpoint observed (feed : price_feed) (i : nat) (orders : list Order.t)
    : list (Order.t * option Q) :=
  match orders with
  | [] => []
  | order :: rest => (order, feed i (Order.ticker order)) :: observed feed (S i) rest
  end.

(** The elements of [l] whose flag is [b]; the flags of a sweep say which
    orders were executed. *)
Fixpoint select {A} (b : bool) (flags : list bool) (l : list A) : list A :=
  match flags, l with
  | f :: flags, x :: l => if eqb f b then x :: select b flags l else select b flags l
  | _, _ => []
  end.

(** The toasts of executed orders. *)
Definition fill_toasts (l : list (Order.t * option Q)) : list toast :=
  omap (fun '(order, ltp) =>
          ToastLimitExecuted (Order.action_ order) (Order.qty order) (Order.ticker order)
            <$> ltp) l.

(** An order that cannot be executed at its turn: the quote is
    unavailable, or the ledger check of its side fails. *)
Definition blocked (order : Order.t) (ltp : option Q) (w : world) : Prop :=
  match ltp with
  | None => True
  | Some p =>
      match Order.action_ order with
      | Buy => (balance w < Zmulq (Order.qty order) p)%Q
      | Sell => Position.qty (holding (Order.ticker order) w) < Order.qty order
      end
  end.

(** A small session used in the examples: three limit orders placed on a
    fresh installation, and quotes for two tickers. *)
Definition demo_world : world :=
  fst (run [ExecuteTrade "X.BO" 100 10 Buy Limit 101;
            ExecuteTrade "Y.BO" 50 5 Sell Limit 40;
            ExecuteTrade "X.BO" 100 20000 Buy Limit 101] fresh).

Definition demo_feed : price_feed :=
  const_feed [("X.BO"%string, 100%Q); ("Y.BO"%string, 50%Q)].

(** * The rest of the application

    The parts of [DT.py] around the ledger (session start, the trade tab
    guard, the portfolio table, the index summary, the display code of a
    ticker) and the start-up probe of [app_launcher.py]. *)

(** ** Session start (lines 134-146)

    A new session takes the portfolio and the balance from their files, or
    the defaults when a file is missing; the files stay as they are. *)
Definition start_session (w : world) : world :=
  World (default ∅ (PORTFOLIO_FILE w)) (default 1000000%Q (BALANCE_FILE w))
        (PORTFOLIO_FILE w) (BALANCE_FILE w) (LIMIT_ORDER_FILE w).

(** ** Quotes as the tabs see them

    What [stock.info] can give for ["regularMarketPrice"]: the lookup
    raises, the key is missing, the value is [None], or a price. *)
Inductive quote_info :=
| QuoteError
| QuoteMissing
| QuoteNull
| QuotePrice (p : Q).

(** Lines 396-411: the price of the trade tab, [0.0] when none came. *)
Definition live_price (info : quote_info) : Q :=
  match info with
  | QuotePrice p => p
  | QuoteError | QuoteMissing | QuoteNull => 0%Q
  end.

(** Lines 413-493: the order form is drawn under [if ltp > 0]; [clicked]
    tells whether "Execute Trade" was pressed in this run. *)
Definition trade_tab (symbol : string) (info : quote_info) (qty : Z) (act : action)
    (ot : order_type) (target_price : Q) (clicked : bool) (w : world) : outcome :=
  let ltp := live_price info in
  if Qgt_bool ltp 0 then
    if clicked then execute_trade symbol ltp qty act ot target_price w
    else Outcome w [] None
  else Outcome w [] None.

(** ** The portfolio table (lines 248-268) *)

(** [current_prices[symbol]]: [stock.info.get("regularMarketPrice", 0)],
    and [0] when the lookup raises; a null price stays null and turns the
    derived columns into missing values. *)
Definition table_price (info : quote_info) : option Q :=
  match info with
  | QuotePrice p => Some p
  | QuoteNull => None
  | QuoteError | QuoteMissing => Some 0%Q
  end.

Record table_row := TableRow {
  row_qty : Z;
  row_avg_price : Q;
  row_current_price : option Q;     (* "Current Price" *)
  row_value : option Q;             (* "Value" *)
  row_pl : option Q                 (* "P/L" *)
}.

Definition make_row (info : quote_info) (pos : Position.t) : table_row :=
  let current := table_price info in
  TableRow (Position.qty pos) (Position.avg_price pos) current
           ((fun c => Zmulq (Position.qty pos) c) <$> current)
           ((fun c => ((c - Position.avg_price pos) * inject_Z (Position.qty pos))%Q)
              <$> current).

(** [None] stands for the "portfolio is currently empty" message. *)
Definition portfolio_tab (quotes : string → quote_info) (w : world)
    : option (gmap string table_row) :=
  if bool_decide (portfolio w = ∅) then None
  else Some (map_imap (fun symbol pos => Some (make_row (quotes symbol) pos)) (portfolio w)).

(** ** The index summary (lines 317-333) *)

(** [x / y] on floats. *)
Definition Qtruediv (x y : Q) : exn + Q :=
  if Qeq_bool y 0 then inl ZeroDivisionError else inr (x / y)%Q.

Section IndexData.

(** [round(_, 2)], whose result depends on the binary representation of
    its argument, is left open. *)
Variable round2 : Q → Q.

Definition get_index_data (current prev : option Q) : exn + option (Q * Q * Q) :=
  match current, prev with
  | Some current, Some prev =>
      let chg := (current - prev)%Q in
      match Qtruediv chg prev with
      | inl e => inl e
      | inr ratio =>
          let pct := (ratio * 100)%Q in
          inr (Some (round2 current, round2 chg, round2 pct))
      end
  | _, _ => inr None
  end.

End IndexData.

(** ** The display code of a ticker: [ticker.replace(".BO", "")] *)

(** [s.replace(old, new)] for a non-empty [old]: occurrences are taken
    from the left and do not overlap; [skip] counts the characters of an
    occurrence still to be dropped. *)
Fixpoint replace_from (old new : string) (skip : nat) (s : string) : string :=
  match s with
  | EmptyString => EmptyString
  | String c rest =>
      match skip with
      | S k => replace_from old new k rest
      | O =>
          if String.prefix old s
          then (new ++ replace_from old new (String.length old - 1) rest)%string
          else String c (replace_from old new 0 rest)
      end
  end.

(** With an empty [old], [new] goes before every character and at the end. *)
Fixpoint intersperse_before (new s : string) : string :=
  match s with
  | EmptyString => new
  | String c rest => (new ++ String c (intersperse_before new rest))%string
  end.

Definition str_replace (old new s : string) : string :=
  match old with
  | EmptyString => intersperse_before new s
  | String _ _ => replace_from old new 0 s
  end.

Definition display_code (ticker : string) : string := str_replace ".BO" "" ticker.

(** [old in s] *)
Fixpoint occurs (old s : string) : bool :=
  String.prefix old s
  || match s with
     | EmptyString => false
     | String _ rest => occurs old rest
     end.

(** ** The start-up probe of [app_launcher.py]: [wait_for_streamlit] *)

(** One [requests.get]: a response with its status code, a
    [requests.ConnectionError], or any other exception. *)
Inductive probe := Status (code : Z) | ConnectionError | OtherError.

(** How the wait ends, with the number of [time.sleep(1)] calls made. *)
Inductive wait_result :=
| WaitReturned (ready : bool) (sleeps : nat)
| WaitRaised (sleeps : nat).

(** [tries] iterations of the loop are left; [i] counts the probes made. *)
Fixpoint wait_tries (get : nat → probe) (i tries : nat) : wait_result :=
  match tries with
  | O => WaitReturned false i
  | S tries =>
      match get i with
      | Status code =>
          if Z.eqb code 200 then WaitReturned true i
          else wait_tries get (S i) tries
      | ConnectionError => wait_tries get (S i) tries
      | OtherError => WaitRaised i
      end
  end.

Definition max_tries : nat := 20.

Definition wait_for_streamlit (get : nat → probe) : wait_result :=
  wait_tries get 0 max_tries.

(** ** Quantities used in the statements *)

(** Shares of [symbol] moved by the execution a toast announces. *)
Definition share_flow (symbol : string) (t : toast) : Z :=
  match t with
  | ToastLimitExecuted Buy q s _ | ToastBought q s _ =>
      if bool_decide (s = symbol) then q else 0
  | ToastLimitExecuted Sell q s _ | ToastSold q s _ =>
      if bool_decide (s = symbol) then - q else 0
  | _ => 0
  end.

Definition net_shares (symbol : string) (ts : list toast) : Z :=
  foldr (fun t acc => share_flow symbol t + acc) 0 ts.

(** What a position cost: quantity times average cost. *)
Definition book_value (pos : Position.t) : Q :=
  Zmulq (Position.qty pos) (Position.avg_price pos).

(** * Properties *)

(** ** Arithmetic and guard lemmas *)

Lemma Qgt_bool_true x y : Qgt_bool x y = true ↔ (y < x)%Q.
Proof.
  unfold Qgt_bool. rewrite negb_true_iff, <- not_true_iff_false, Qle_bool_iff.
  split; [apply Qnot_le_lt | apply Qlt_not_le].
Qed.

Lemma Qgt_bool_false x y : Qgt_bool x y = false ↔ (x <= y)%Q.
Proof. unfold Qgt_bool. by rewrite negb_false_iff, Qle_bool_iff. Qed.

Lemma Qle_bool_false x y : Qle_bool x y = false ↔ (y < x)%Q.
Proof.
  rewrite <- not_true_iff_false, Qle_bool_iff.
  split; [apply Qnot_le_lt | apply Qlt_not_le].
Qed.

Lemma no_price_guard ltp : Qeq_bool ltp 0 || Qle_bool ltp 0 = false ↔ (0 < ltp)%Q.
Proof.
  rewrite orb_false_iff, Qle_bool_false. split; [tauto |].
  intros H; split; [| done].
  apply not_true_iff_false. rewrite Qeq_bool_iff. intros E. rewrite E in H.
  by apply Qlt_irrefl in H.
Qed.

Lemma truediv_inr x n : n ≠ 0 → truediv x n = inr (x / inject_Z n)%Q.
Proof. intros H. unfold truediv. by apply Z.eqb_neq in H as ->. Qed.

Lemma truediv_inv x n r : truediv x n = inr r → n ≠ 0 ∧ r = (x / inject_Z n)%Q.
Proof.
  unfold truediv. destruct (Z.eqb_spec n 0); [done |]. by intros [= <-].
Qed.

Lemma Zmulq_nonneg q p : 0 <= q → (0 <= p)%Q → (0 <= Zmulq q p)%Q.
Proof.
  intros Hq Hp. unfold Zmulq. apply Qmult_le_0_compat; [| done].
  change 0%Q with (inject_Z 0). by rewrite <- Zle_Qle.
Qed.

Lemma first_buy_average q p : q ≠ 0 → ((Zmulq 0 0 + Zmulq q p) / inject_Z q == p)%Q.
Proof.
  intros Hq. unfold Zmulq. field. intros E.
  change 0%Q with (inject_Z 0) in E. by apply (proj1 (inject_Z_injective _ _)) in E.
Qed.

(** ** One sweep iteration, by cases *)

Lemma process_order_unfillable order ltp s :
  fillable order ltp (session s) = false →
  process_order order ltp s = inr (keep_pending order s).
Proof.
  unfold fillable, process_order. destruct ltp as [ltp|]; [| done].
  destruct (condition_met _ _ _); [| done]. simpl.
  destruct (Order.action_ order); by intros ->.
Qed.

Lemma process_order_buy order ltp s :
  Order.action_ order = Buy →
  fillable order (Some ltp) (session s) = true →
  process_order order (Some ltp) s =
    let w := session s in
    let p := holding (Order.ticker order) w in
    let new_qty := Position.qty p + Order.qty order in
    match truediv (Zmulq (Position.qty p) (Position.avg_price p)
                   + Zmulq (Order.qty order) ltp)%Q new_qty with
    | inl e => inl e
    | inr new_avg =>
        inr (Sweep
               (set_session
                  (<[Order.ticker order := Position.mk new_qty new_avg]> (portfolio w))
                  (balance w - Zmulq (Order.qty order) ltp)%Q w)
               (remaining s) true
               (toasted s ++ [ToastLimitExecuted Buy (Order.qty order) (Order.ticker order) ltp]))
    end.
Proof.
  unfold fillable, process_order. intros ->.
  destruct (condition_met _ _ _); [| done]. simpl. by intros ->.
Qed.

Lemma process_order_sell order ltp s :
  Order.action_ order = Sell →
  fillable order (Some ltp) (session s) = true →
  process_order order (Some ltp) s =
    let w := session s in
    let p := holding (Order.ticker order) w in
    let p' := Position.mk (Position.qty p - Order.qty order) (Position.avg_price p) in
    match (if Z.gtb (Position.qty p') 0
           then inr (<[Order.ticker order := p']> (portfolio w))
           else del_position (Order.ticker order) w) with
    | inl e => inl e
    | inr pf =>
        inr (Sweep
               (set_session pf (balance w + Zmulq (Order.qty order) ltp)%Q w)
               (remaining s) true
               (toasted s ++ [ToastLimitExecuted Sell (Order.qty order) (Order.ticker order) ltp]))
    end.
Proof.
  unfold fillable, process_order. intros ->.
  destruct (condition_met _ _ _); [| done]. simpl. by intros ->.
Qed.

(** An iteration either keeps the order (session untouched) or executes
    it (pending list untouched, one toast more). *)
Lemma process_order_inr order ltp s s' :
  process_order order ltp s = inr s' →
  (fillable order ltp (session s) = false ∧ s' = keep_pending order s)
  ∨ (∃ p, ltp = Some p ∧ fillable order ltp (session s) = true ∧
          remaining s' = remaining s ∧ changed s' = true ∧
          toasted s' = toasted s ++
            [ToastLimitExecuted (Order.action_ order) (Order.qty order)
                                (Order.ticker order) p]).
Proof.
  destruct (fillable order ltp (session s)) eqn:Hf.
  - intros H. right. destruct ltp as [p|]; [| done]. exists p.
    destruct (Order.action_ order) eqn:Ha.
    + rewrite (process_order_buy _ _ _ Ha Hf) in H. simpl in H.
      destruct (truediv _ _); [done |]. by injection H as <-.
    + rewrite (process_order_sell _ _ _ Ha Hf) in H. simpl in H.
      destruct (if Z.gtb _ 0 then _ else _); [done |]. by injection H as <-.
  - rewrite (process_order_unfillable _ _ _ Hf). intros [= <-]. by left.
Qed.

Lemma keep_pending_toasted order s s' p a q t :
  s' = keep_pending order s →
  toasted s' = toasted s ++ [ToastLimitExecuted a q t p] → False.
Proof.
  intros -> H. simpl in H. apply (f_equal length) in H.
  rewrite length_app in H. simpl in H. lia.
Qed.

(** ** Executed buys and sells, inverted *)

Lemma market_fill_price act w symbol q p w' :
  market_fill act w symbol q p w' → (0 < p)%Q.
Proof.
  intros [tp H]. apply no_price_guard. unfold execute_trade in H.
  destruct (Qeq_bool p 0 || Qle_bool p 0); [| done]. destruct act; done.
Qed.

Lemma buys_inv w symbol q p w' :
  buys w symbol q p w' →
  let h := holding symbol w in
  (Zmulq q p <= balance w)%Q ∧ Position.qty h + q ≠ 0 ∧
  portfolio w' =
    <[symbol := Position.mk (Position.qty h + q)
                  ((Zmulq (Position.qty h) (Position.avg_price h) + Zmulq q p)
                   / inject_Z (Position.qty h + q))%Q]> (portfolio w) ∧
  balance w' = (balance w - Zmulq q p)%Q ∧
  LIMIT_ORDER_FILE w' = LIMIT_ORDER_FILE w.
Proof.
  intros [Hm | (tp & s & s' & <- & <- & Hp & Ht)]; simpl.
  - pose proof (market_fill_price _ _ _ _ _ _ Hm) as Hpos.
    destruct Hm as [tp H]. unfold execute_trade in H.
    apply no_price_guard in Hpos. rewrite Hpos in H.
    destruct (Qgt_bool _ _) eqn:Hc; [done |]. apply Qgt_bool_false in Hc.
    destruct (truediv _ _) as [|r] eqn:Hd; [done |].
    apply truediv_inv in Hd as [Hn ->]. by injection H as <-.
  - destruct (process_order_inr _ _ _ _ Hp) as [[_ ->] | (p' & [= <-] & Hf & _)].
    { by destruct (keep_pending_toasted _ _ _ _ _ _ _ eq_refl Ht). }
    rewrite (process_order_buy (Order.mk symbol Buy q tp) _ _ eq_refl Hf) in Hp. simpl in Hp.
    unfold fillable in Hf. simpl in Hf. apply andb_true_iff in Hf as [_ Hc].
    apply Qle_bool_iff in Hc.
    destruct (truediv _ _) as [|r] eqn:Hd; [done |].
    apply truediv_inv in Hd as [Hn ->]. by injection Hp as <-.
Qed.

Lemma sells_inv w symbol q p w' :
  sells w symbol q p w' →
  let h := holding symbol w in
  q <= Position.qty h ∧
  portfolio w' =
    (if Z.eqb (Position.qty h - q) 0 then delete symbol (portfolio w)
     else <[symbol := Position.mk (Position.qty h - q) (Position.avg_price h)]>
            (portfolio w)) ∧
  (Position.qty h = q → is_Some (portfolio w !! symbol)) ∧
  balance w' = (balance w + Zmulq q p)%Q ∧
  LIMIT_ORDER_FILE w' = LIMIT_ORDER_FILE w.
Proof.
  intros [Hm | (tp & s & s' & <- & <- & Hp & Ht)]; simpl.
  - pose proof (market_fill_price _ _ _ _ _ _ Hm) as Hpos.
    destruct Hm as [tp H]. unfold execute_trade in H.
    apply no_price_guard in Hpos. rewrite Hpos in H.
    destruct (Z.gtb_spec q (Position.qty (holding symbol w))); [done |].
    simpl in H. split; [lia |].
    destruct (Z.eqb_spec (Position.qty (holding symbol w) - q) 0) as [Hz | Hz].
    + unfold del_position in H.
      destruct (portfolio w !! symbol) eqn:Hl; [| done]. by injection H as <-.
    + injection H as <-. repeat split; try done. intros; lia.
  - destruct (process_order_inr _ _ _ _ Hp) as [[_ ->] | (p' & [= <-] & Hf & _)].
    { by destruct (keep_pending_toasted _ _ _ _ _ _ _ eq_refl Ht). }
    rewrite (process_order_sell (Order.mk symbol Sell q tp) _ _ eq_refl Hf) in Hp. simpl in Hp.
    unfold fillable in Hf. simpl in Hf. apply andb_true_iff in Hf as [_ Hc].
    apply Z.geb_le in Hc. split; [done |].
    destruct (Z.gtb_spec (Position.qty (holding symbol (session s)) - q) 0) as [Hz | Hz].
    + injection Hp as <-. simpl.
      destruct (Z.eqb_spec (Position.qty (holding symbol (session s)) - q) 0); [lia |].
      repeat split; try done. intros; lia.
    + unfold del_position in Hp.
      destruct (portfolio (session s) !! symbol) eqn:Hl; [| done].
      injection Hp as <-. simpl.
      destruct (Z.eqb_spec (Position.qty (holding symbol (session s)) - q) 0); [| lia].
      done.
Qed.

Lemma holding_lookup symbol w pos :
  portfolio w !! symbol = Some pos → holding symbol w = pos.
Proof. unfold holding. by intros ->. Qed.

Lemma holding_missing symbol w :
  portfolio w !! symbol = None → holding symbol w = Position.mk 0 0%Q.
Proof. unfold holding. by intros ->. Qed.

(** ** Average cost after buys *)



(** ** Sells leave the average cost and the other positions alone *)

(** C3. An executed sell of [q] shares of a held symbol, on either path,
    never exceeds the held quantity; when [q] is less than the held
    quantity the position keeps its average cost with the quantity
    reduced by [q]; whatever position of the symbol is left has the old
    average cost; every other symbol's entry and the pending orders are
    untouched, and the balance grows by [q * p]. *)
Theorem sell_frame w symbol q p w' old :
  sells w symbol q p w' →
  portfolio w !! symbol = Some old →
  q <= Position.qty old
  ∧ (q < Position.qty old →
     portfolio w' !! symbol
     = Some (Position.mk (Position.qty old - q) (Position.avg_price old)))
  ∧ (∀ pos, portfolio w' !! symbol = Some pos →
            Position.avg_price pos = Position.avg_price old)
  ∧ (∀ other, other ≠ symbol → portfolio w' !! other = portfolio w !! other)
  ∧ balance w' = (balance w + Zmulq q p)%Q
  ∧ LIMIT_ORDER_FILE w' = LIMIT_ORDER_FILE w.
Proof.
  intros Hs Hl.
  destruct (sells_inv _ _ _ _ _ Hs) as (Hle & Hp & _ & Hb & Hf).
  rewrite (holding_lookup _ _ _ Hl) in *.
  split; [done |]. rewrite Hp.
  destruct (Z.eqb_spec (Position.qty old - q) 0) as [Hz | Hz].
  - split; [intros; lia |]. split.
    { intros pos. by rewrite lookup_delete_eq. }
    split; [| done]. intros other Hne. by rewrite lookup_delete_ne.
  - split; [intros _; apply lookup_insert_eq |]. split.
    { intros pos. rewrite lookup_insert_eq. by intros [= <-]. }
    split; [| done]. intros other Hne. by rewrite lookup_insert_ne.
Qed.

Lemma sell_frame_witness :
  let w1 := final (execute_trade "X.BO" 100 10 Buy Market 0 fresh) in
  let w2 := final (execute_trade "X.BO" 130 4 Sell Market 0 w1) in
  portfolio w2 !! "X.BO" = Some (Position.mk (10 - 4) ((0 * 0 + 10 * 100) / 10)%Q)
  ∧ balance w2 = (balance w1 + Zmulq 4 130)%Q.
Proof.
  intros w1 w2.
  assert (H : sells w1 "X.BO" 4 130 w2) by (left; exists 0%Q; reflexivity).
  destruct (sell_frame w1 "X.BO" 4 130%Q w2
              (Position.mk 10 ((0 * 0 + 10 * 100) / 10)%Q) H eq_refl)
    as (_ & Hpart & _ & _ & Hbal & _).
  split; [apply Hpart; simpl; lia | exact Hbal].
Defined.

(** ** The divisor of the average-cost formula *)

(** C10. With a requested quantity of at least 1 and a non-negative
    stored (or defaulted) quantity, the divisor [new_qty] of both buy
    paths is positive, the division returns a quotient, and neither path
    ends in an exception. *)
Theorem buy_divisor_positive symbol qty w :
  1 <= qty →
  0 <= Position.qty (holding symbol w) →
  let new_qty := Position.qty (holding symbol w) + qty in
  0 < new_qty
  ∧ (∀ x, truediv x new_qty = inr (x / inject_Z new_qty)%Q)
  ∧ (∀ ltp target_price,
        raised (execute_trade symbol ltp qty Buy Market target_price w) = None)
  ∧ (∀ target_price ltp s,
        session s = w →
        ∃ s', process_order (Order.mk symbol Buy qty target_price) ltp s = inr s').
Proof.
  intros Hq Hh new_qty. assert (Hpos : 0 < new_qty) by (unfold new_qty; lia).
  assert (Hdiv : ∀ x, truediv x new_qty = inr (x / inject_Z new_qty)%Q).
  { intros x. apply truediv_inr. lia. }
  repeat split; [done | done | |].
  - intros ltp tp. unfold execute_trade.
    destruct (Qeq_bool ltp 0 || Qle_bool ltp 0); [done |].
    destruct (Qgt_bool _ _); [done |]. fold new_qty. by rewrite Hdiv.
  - intros tp ltp s <-.
    destruct (fillable (Order.mk symbol Buy qty tp) ltp (session s)) eqn:Hf.
    + destruct ltp as [ltp|]; [| done].
      rewrite (process_order_buy (Order.mk symbol Buy qty tp) _ _ eq_refl Hf).
      simpl. fold new_qty. rewrite Hdiv. by eexists.
    + rewrite (process_order_unfillable _ _ _ Hf). by eexists.
Qed.

Lemma buy_divisor_positive_witness :
  0 < Position.qty (holding "X.BO" fresh) + 3
  ∧ raised (execute_trade "X.BO" 100 3 Buy Market 0 fresh) = None.
Proof.
  destruct (buy_divisor_positive "X.BO" 3 fresh ltac:(lia) ltac:(vm_compute; discriminate))
    as (Hpos & _ & Hraise & _).
  split; [exact Hpos | exact (Hraise 100%Q 0%Q)].
Defined.

(** ** The sweep as a whole *)

Lemma for_orders_app feed i os1 os2 s :
  for_orders feed i (os1 ++ os2) s =
    match for_orders feed i os1 s with
    | (s1, None) => for_orders feed (i + length os1) os2 s1
    | r => r
    end.
Proof.
  revert i s. induction os1 as [| o os1 IH]; intros i s; simpl.
  - by rewrite Nat.add_0_r.
  - destruct (process_order _ _ _) as [e | s1]; [done |].
    rewrite IH. by rewrite Nat.add_succ_r.
Qed.

Lemma for_orders_cons_inv feed i o os s s' :
  for_orders feed i (o :: os) s = (s', None) →
  ∃ s1, process_order o (feed i (Order.ticker o)) s = inr s1 ∧
        for_orders feed (S i) os s1 = (s', None).
Proof.
  simpl. destruct (process_order _ _ _) as [e | s1]; [done |]. by exists s1.
Qed.

(** The whole loop, order by order: [flags] marks the executed orders;
    the flag of the [j]-th order is the outcome of its guards in the
    session left by the [j] orders before it. *)
Lemma for_orders_trace feed orders : ∀ i s s',
  for_orders feed i orders s = (s', None) →
  ∃ flags : list bool,
    length flags = length orders ∧
    remaining s' = remaining s ++ select false flags orders ∧
    toasted s' = toasted s ++ fill_toasts (select true flags (observed feed i orders)) ∧
    ∀ (j : nat) order, orders !! j = Some order →
      ∃ sj, for_orders feed i (take j orders) s = (sj, None) ∧
            flags !! j = Some (fillable order (feed (i + j)%nat (Order.ticker order))
                                 (session sj)).
Proof.
  induction orders as [| o os IH]; intros i s s' H.
  - injection H as <-. exists []. simpl. rewrite !app_nil_r. by repeat split.
  - apply for_orders_cons_inv in H as (s1 & Hp & Hrest).
    destruct (IH _ _ _ Hrest) as (flags & Hlen & Hrem & Htoast & Hpt).
    assert (Hidx : ∀ (j : nat) order, (o :: os) !! j = Some order →
      ∃ sj, for_orders feed i (take j (o :: os)) s = (sj, None) ∧
            (fillable o (feed i (Order.ticker o)) (session s) :: flags) !! j
            = Some (fillable order (feed (i + j)%nat (Order.ticker order)) (session sj))).
    { intros [| j] order Hj.
      - injection Hj as <-. exists s. by rewrite Nat.add_0_r.
      - destruct (Hpt j order Hj) as (sj & Hsj & Hfj). exists sj. simpl.
        rewrite Hp. by rewrite Nat.add_succ_r. }
    exists (fillable o (feed i (Order.ticker o)) (session s) :: flags).
    destruct (process_order_inr _ _ _ _ Hp) as [[Hf ->] | (p & Hq & Hf & Hr1 & _ & Ht1)].
    + rewrite Hf in *. simpl in *. rewrite Hrem, Htoast, <- !app_assoc.
      repeat split; [by rewrite Hlen | done].
    + rewrite Hf in *. simpl. rewrite Hrem, Htoast, Hr1, Ht1, Hq, <- !app_assoc.
      repeat split; [by rewrite Hlen | done].
Qed.

Lemma select_length {A} (flags : list bool) (l : list A) :
  length flags = length l →
  (length (select false flags l) + length (select true flags l))%nat = length l.
Proof.
  revert l. induction flags as [| f flags IH]; intros [| x l]; simpl; try done.
  intros [= H]. specialize (IH _ H). destruct f; simpl; lia.
Qed.

Lemma select_sublist {A} b (flags : list bool) (l : list A) :
  sublist (select b flags l) l.
Proof.
  revert l. induction flags as [| f flags IH]; intros [| x l]; simpl;
    try apply sublist_nil_l.
  destruct (eqb f b); [by apply sublist_skip | by apply sublist_cons].
Qed.

(** ** What one iteration does to the ledger *)

Lemma process_order_fill order ltp s s' :
  process_order order ltp s = inr s' →
  s' = keep_pending order s
  ∨ ∃ p, ltp = Some p ∧
         remaining s' = remaining s ∧
         toasted s' = toasted s ++
           [ToastLimitExecuted (Order.action_ order) (Order.qty order)
                               (Order.ticker order) p] ∧
         limit_fill (Order.action_ order) (session s) (Order.ticker order)
                    (Order.qty order) p (session s').
Proof.
  intros H.
  destruct (process_order_inr _ _ _ _ H) as [[_ ->] | (p & -> & _ & Hr & _ & Ht)];
    [by left | right].
  exists p. repeat split; try done.
  exists (Order.target_price order), s, s'. by destruct order.
Qed.

Lemma net_cash_app ts1 ts2 : (net_cash (ts1 ++ ts2) == net_cash ts1 + net_cash ts2)%Q.
Proof.
  induction ts1 as [| t ts1 IH]; simpl.
  - by rewrite Qplus_0_l.
  - rewrite IH. by rewrite Qplus_assoc.
Qed.

Lemma process_order_cash order ltp s s' :
  process_order order ltp s = inr s' →
  ∃ ts, toasted s' = toasted s ++ ts ∧
        (balance (session s') == balance (session s) + net_cash ts)%Q.
Proof.
  intros H.
  destruct (process_order_fill _ _ _ _ H) as [-> | (p & _ & _ & Ht & Hfill)].
  - exists []. simpl. by rewrite app_nil_r, Qplus_0_r.
  - eexists; split; [exact Ht |]. simpl.
    destruct (Order.action_ order).
    + destruct (buys_inv _ _ _ _ _ (or_intror Hfill)) as (_ & _ & _ & -> & _).
      simpl. ring.
    + destruct (sells_inv _ _ _ _ _ (or_intror Hfill)) as (_ & _ & _ & -> & _).
      simpl. ring.
Qed.

Lemma process_order_balance order ltp s s' :
  process_order order ltp s = inr s' →
  0 <= Order.qty order →
  (∀ p, ltp = Some p → (0 < p)%Q) →
  (0 <= balance (session s))%Q → (0 <= balance (session s'))%Q.
Proof.
  intros H Hq Hp Hb.
  destruct (process_order_fill _ _ _ _ H) as [-> | (p & -> & _ & _ & Hfill)]; [done |].
  destruct (Order.action_ order).
  - destruct (buys_inv _ _ _ _ _ (or_intror Hfill)) as (Hc & _ & _ & -> & _).
    simpl in Hc. lra.
  - destruct (sells_inv _ _ _ _ _ (or_intror Hfill)) as (_ & _ & _ & -> & _).
    pose proof (Zmulq_nonneg (Order.qty order) p Hq (Qlt_le_weak _ _ (Hp p eq_refl))).
    lra.
Qed.

Lemma holding_nonneg symbol w : holdings_ok w → 0 <= Position.qty (holding symbol w).
Proof.
  intros Hok. unfold holding.
  destruct (portfolio w !! symbol) as [pos|] eqn:Hl; simpl; [| done].
  apply Z.lt_le_incl. exact (Hok _ _ Hl).
Qed.

Lemma holding_positive_held symbol w :
  0 < Position.qty (holding symbol w) → is_Some (portfolio w !! symbol).
Proof.
  unfold holding. destruct (portfolio w !! symbol); simpl; [by eexists | lia].
Qed.

(** With an order of quantity at least 1 and a well-formed portfolio an
    iteration raises nothing and leaves the portfolio well-formed. *)
Lemma process_order_holdings order ltp s :
  1 <= Order.qty order →
  holdings_ok (session s) →
  ∃ s', process_order order ltp s = inr s' ∧ holdings_ok (session s').
Proof.
  intros Hq Hok.
  pose proof (holding_nonneg (Order.ticker order) _ Hok) as Hh.
  destruct (fillable order ltp (session s)) eqn:Hf.
  - destruct ltp as [p|]; [| done]. destruct (Order.action_ order) eqn:Ha.
    + rewrite (process_order_buy _ _ _ Ha Hf). simpl.
      rewrite truediv_inr by lia. eexists; split; [done |]. simpl.
      apply map_Forall_insert_2; [simpl; lia | done].
    + rewrite (process_order_sell _ _ _ Ha Hf). simpl.
      unfold fillable in Hf. rewrite Ha in Hf. apply andb_true_iff in Hf as [_ Hc].
      apply Z.geb_le in Hc.
      destruct (Z.gtb_spec (Position.qty (holding (Order.ticker order) (session s))
                            - Order.qty order) 0) as [Hz | Hz].
      * eexists; split; [done |]. simpl. by apply map_Forall_insert_2.
      * unfold del_position.
        destruct (holding_positive_held (Order.ticker order) (session s)) as [pos ->];
          [lia |].
        eexists; split; [done |]. simpl. by apply map_Forall_delete.
  - rewrite (process_order_unfillable _ _ _ Hf). by eexists.
Qed.

Lemma for_orders_holdings feed orders : ∀ i s,
  Forall (fun order => 1 <= Order.qty order) orders →
  holdings_ok (session s) →
  ∃ s', for_orders feed i orders s = (s', None) ∧ holdings_ok (session s').
Proof.
  induction orders as [| o os IH]; intros i s Hall Hok; simpl.
  - by exists s.
  - apply Forall_cons in Hall as [Ho Hos].
    destruct (process_order_holdings o (feed i (Order.ticker o)) s Ho Hok)
      as (s1 & -> & Hok1).
    by apply IH.
Qed.

Lemma for_orders_cash feed orders : ∀ i s s' r,
  for_orders feed i orders s = (s', r) →
  ∃ ts, toasted s' = toasted s ++ ts ∧
        (balance (session s') == balance (session s) + net_cash ts)%Q.
Proof.
  induction orders as [| o os IH]; intros i s s' r; simpl.
  - intros [= <- <-]. exists []. simpl. by rewrite app_nil_r, Qplus_0_r.
  - destruct (process_order _ _ _) as [e | s1] eqn:Hp.
    + intros [= <- <-]. exists []. simpl. by rewrite app_nil_r, Qplus_0_r.
    + intros H. destruct (IH _ _ _ _ H) as (ts2 & Ht2 & Hb2).
      destruct (process_order_cash _ _ _ _ Hp) as (ts1 & Ht1 & Hb1).
      exists (ts1 ++ ts2). rewrite Ht2, Ht1, <- app_assoc. split; [done |].
      rewrite Hb2, Hb1, net_cash_app. ring.
Qed.

Lemma for_orders_balance feed orders : ∀ i s s' r,
  for_orders feed i orders s = (s', r) →
  Forall (fun order => 1 <= Order.qty order) orders →
  feed_ok feed →
  (0 <= balance (session s))%Q → (0 <= balance (session s'))%Q.
Proof.
  induction orders as [| o os IH]; intros i s s' r; simpl.
  - by intros [= <- <-].
  - intros H Hall Hfeed Hb. apply Forall_cons in Hall as [Ho Hos].
    destruct (process_order _ _ _) as [e | s1] eqn:Hp.
    + by injection H as <- <-.
    + apply (IH _ _ _ _ H Hos Hfeed).
      apply (process_order_balance _ _ _ _ Hp); [lia | | done].
      intros p Hq. by apply (Hfeed _ _ _ Hq).
Qed.

Lemma for_orders_remaining feed orders : ∀ i s s' r,
  for_orders feed i orders s = (s', r) →
  ∃ kept, remaining s' = remaining s ++ kept ∧ sublist kept orders.
Proof.
  induction orders as [| o os IH]; intros i s s' r; simpl.
  - intros [= <- <-]. exists []. by rewrite app_nil_r.
  - destruct (process_order _ _ _) as [e | s1] eqn:Hp.
    + intros [= <- <-]. exists []. rewrite app_nil_r. split; [done |].
      apply sublist_nil_l.
    + intros H. destruct (IH _ _ _ _ H) as (kept & Hk & Hsub).
      destruct (process_order_fill _ _ _ _ Hp) as [-> | (p & _ & Hr & _)].
      * exists (o :: kept). simpl in Hk. rewrite Hk, <- app_assoc.
        split; [done | by apply sublist_skip].
      * exists kept. rewrite Hk, Hr. split; [done | by apply sublist_cons].
Qed.

(** ** The handlers *)

(** The trade tab handler either leaves the world as it was (no valid
    price, a rejected market order, an exception), or stores a limit
    order, or executes a market order. *)
Lemma execute_trade_cases symbol ltp qty act ot target_price w :
  let o := execute_trade symbol ltp qty act ot target_price w in
  (final o = w ∧ Forall (fun t => cash_flow t = 0%Q) (shown o))
  ∨ ((0 < ltp)%Q ∧ ot = Limit ∧
     o = Outcome (save_limit_orders
                    (load_limit_orders w ++ [Order.mk symbol act qty target_price]) w)
                 [ToastLimitPlaced act qty symbol target_price] None)
  ∨ ((0 < ltp)%Q ∧ ot = Market ∧ raised o = None ∧
     shown o = [match act with Buy => ToastBought qty symbol ltp
                             | Sell => ToastSold qty symbol ltp end] ∧
     market_fill act w symbol qty ltp (final o)).
Proof.
  intros o. subst o. unfold market_fill. unfold execute_trade.
  destruct (Qeq_bool ltp 0 || Qle_bool ltp 0) eqn:Hg.
  { left. split; [done |]. by repeat constructor. }
  apply no_price_guard in Hg.
  destruct ot; [by right; left |]. destruct act.
  - destruct (Qgt_bool _ _); [left; split; [done | by repeat constructor] |].
    destruct (truediv _ _); [left; split; [done | by constructor] |].
    right; right. do 4 (split; [done |]). by exists target_price.
  - destruct (Z.gtb _ _); [left; split; [done | by repeat constructor] |]. simpl.
    destruct (if Z.eqb _ 0 then _ else _);
      [left; split; [done | by constructor] |].
    right; right. do 4 (split; [done |]). by exists target_price.
Qed.

Lemma net_cash_zero ts : Forall (fun t => cash_flow t = 0%Q) ts → (net_cash ts == 0)%Q.
Proof.
  induction 1 as [| t ts Ht _ IH]; simpl; [done |]. rewrite Ht, IH. ring.
Qed.

Lemma process_limit_orders_loop feed w :
  ∃ s r, for_orders feed 0%nat (load_limit_orders w) (Sweep w [] false []) = (s, r) ∧
         shown (fst (process_limit_orders feed w)) = toasted s ∧
         raised (fst (process_limit_orders feed w)) = r ∧
         portfolio (final (fst (process_limit_orders feed w))) = portfolio (session s) ∧
         balance (final (fst (process_limit_orders feed w))) = balance (session s) ∧
         (r = None →
          snd (process_limit_orders feed w) = Some (changed s) ∧
          LIMIT_ORDER_FILE (final (fst (process_limit_orders feed w)))
          = Some (remaining s)).
Proof.
  unfold process_limit_orders.
  destruct (for_orders _ _ _ _) as [s [e|]] eqn:Hloop; exists s; eexists;
    (split; [done |]); simpl; repeat split; try done.
  all: by destruct (changed s).
Qed.

Lemma for_orders_files feed orders : ∀ i s s' r,
  for_orders feed i orders s = (s', r) →
  LIMIT_ORDER_FILE (session s') = LIMIT_ORDER_FILE (session s).
Proof.
  induction orders as [| o os IH]; intros i s s' r; simpl.
  - by intros [= <- <-].
  - destruct (process_order _ _ _) as [e | s1] eqn:Hp; [by intros [= <- <-] |].
    intros H. rewrite (IH _ _ _ _ H).
    destruct (process_order_fill _ _ _ _ Hp) as [-> | (p & _ & _ & _ & Hfill)]; [done |].
    destruct (Order.action_ o).
    + by destruct (buys_inv _ _ _ _ _ (or_intror Hfill)) as (_ & _ & _ & _ & ->).
    + by destruct (sells_inv _ _ _ _ _ (or_intror Hfill)) as (_ & _ & _ & _ & ->).
Qed.

Lemma handle_cash ev w :
  is_reset ev = false →
  (balance (final (handle ev w)) == balance w + net_cash (shown (handle ev w)))%Q.
Proof.
  destruct ev as [symbol ltp qty act ot tp | feed |]; [| | done]; intros _; simpl.
  - destruct (execute_trade_cases symbol ltp qty act ot tp w)
      as [[-> Hz] | [(_ & _ & ->) | (_ & _ & _ & -> & Hfill)]].
    + rewrite (net_cash_zero _ Hz). ring.
    + simpl. ring.
    + destruct act.
      * destruct (buys_inv _ _ _ _ _ (or_introl Hfill)) as (_ & _ & _ & -> & _).
        simpl. ring.
      * destruct (sells_inv _ _ _ _ _ (or_introl Hfill)) as (_ & _ & _ & -> & _).
        simpl. ring.
  - destruct (load_limit_orders w) eqn:Hbook; simpl; [ring |].
    destruct (process_limit_orders_loop feed w) as (s & r & Hloop & -> & _ & _ & -> & _).
    destruct (for_orders_cash _ _ _ _ _ _ Hloop) as (ts & -> & Hb). by simpl in *.
Qed.

Lemma Forall_of_sublist {A} (P : A → Prop) (l1 l2 : list A) :
  sublist l1 l2 → Forall P l2 → Forall P l1.
Proof.
  intros Hs. rewrite !Forall_forall. intros H x Hx. apply H.
  by apply (elem_of_sublist l1).
Qed.

Lemma handle_book ev w :
  valid_event ev → book_ok w → book_ok (final (handle ev w)).
Proof.
  unfold book_ok.
  destruct ev as [symbol ltp qty act ot tp | feed |]; simpl; intros Hv Hb.
  - destruct (execute_trade_cases symbol ltp qty act ot tp w)
      as [[-> _] | [(_ & _ & ->) | (_ & _ & _ & _ & Hfill)]]; [done | |].
    + simpl. apply Forall_app. split; [done |]. constructor; [by destruct Hv | done].
    + unfold load_limit_orders in *. destruct act.
      * by destruct (buys_inv _ _ _ _ _ (or_introl Hfill)) as (_ & _ & _ & _ & ->).
      * by destruct (sells_inv _ _ _ _ _ (or_introl Hfill)) as (_ & _ & _ & _ & ->).
  - destruct (load_limit_orders w) eqn:Hbook; [simpl; by rewrite Hbook |].
    rewrite <- Hbook in Hb. clear Hbook.
    destruct (process_limit_orders_loop feed w) as (s & r & Hloop & _ & _ & _ & _ & Hret).
    destruct r as [e|].
    + unfold process_limit_orders. rewrite Hloop. simpl.
      unfold load_limit_orders at 1.
      rewrite (for_orders_files _ _ _ _ _ _ Hloop). done.
    + destruct (Hret eq_refl) as [_ Hfile]. unfold load_limit_orders at 1.
      rewrite Hfile.
      destruct (for_orders_remaining _ _ _ _ _ _ Hloop) as (kept & -> & Hsub).
      simpl. by apply (Forall_of_sublist _ _ _ Hsub).
  - by constructor.
Qed.

Lemma handle_balance ev w :
  valid_event ev → book_ok w → (0 <= balance w)%Q →
  (0 <= balance (final (handle ev w)))%Q.
Proof.
  destruct ev as [symbol ltp qty act ot tp | feed |]; simpl; intros Hv Hbook Hb.
  - destruct (execute_trade_cases symbol ltp qty act ot tp w)
      as [[-> _] | [(_ & _ & ->) | (Hltp & _ & _ & _ & Hfill)]]; [done | done |].
    destruct act.
    + destruct (buys_inv _ _ _ _ _ (or_introl Hfill)) as (Hc & _ & _ & -> & _). lra.
    + destruct (sells_inv _ _ _ _ _ (or_introl Hfill)) as (_ & _ & _ & -> & _).
      destruct Hv as [Hq _].
      pose proof (Zmulq_nonneg qty ltp ltac:(lia) (Qlt_le_weak _ _ Hltp)). lra.
  - destruct (load_limit_orders w) eqn:Hb0; [done |].
    unfold book_ok in Hbook. clear Hb0.
    destruct (process_limit_orders_loop feed w) as (s & r & Hloop & _ & _ & _ & -> & _).
    by apply (for_orders_balance _ _ _ _ _ _ Hloop Hbook Hv).
  - done.
Qed.

Lemma handle_holdings ev w :
  valid_event ev → book_ok w → holdings_ok w →
  holdings_ok (final (handle ev w)) ∧ raised (handle ev w) = None.
Proof.
  destruct ev as [symbol ltp qty act ot tp | feed |]; simpl; intros Hv Hbook Hok.
  - pose proof (holding_nonneg symbol w Hok) as Hh. destruct Hv as [Hq _]. split.
    + destruct (execute_trade_cases symbol ltp qty act ot tp w)
        as [[-> _] | [(_ & _ & ->) | (_ & _ & _ & _ & Hfill)]]; [done | done |].
      unfold holdings_ok. destruct act.
      * destruct (buys_inv _ _ _ _ _ (or_introl Hfill)) as (_ & _ & -> & _).
        apply map_Forall_insert_2; [simpl; lia | done].
      * destruct (sells_inv _ _ _ _ _ (or_introl Hfill)) as (Hle & -> & _).
        destruct (Z.eqb_spec (Position.qty (holding symbol w) - qty) 0).
        -- by apply map_Forall_delete.
        -- apply map_Forall_insert_2; [simpl; lia | done].
    + unfold execute_trade.
      destruct (Qeq_bool ltp 0 || Qle_bool ltp 0); [done |].
      destruct ot; [done |]. destruct act.
      * destruct (Qgt_bool _ _); [done |]. by rewrite truediv_inr by lia.
      * destruct (Z.gtb_spec qty (Position.qty (holding symbol w))); [done |]. simpl.
        destruct (Z.eqb_spec (Position.qty (holding symbol w) - qty) 0); [| done].
        unfold del_position.
        by destruct (holding_positive_held symbol w) as [pos ->]; [lia |].
  - destruct (load_limit_orders w) eqn:Hb0; [done |].
    unfold book_ok in Hbook. rewrite Hb0 in Hbook. rewrite <- Hb0 in Hbook. clear Hb0.
    destruct (for_orders_holdings feed _ 0%nat (Sweep w [] false []) Hbook Hok)
      as (s' & Hloop & Hok').
    destruct (process_limit_orders_loop feed w) as (s & r & Hloop' & _ & -> & Hp & _).
    rewrite Hloop in Hloop'. injection Hloop' as <- <-.
    split; [| done]. unfold holdings_ok. by rewrite Hp.
  - split; [| done]. apply map_Forall_empty.
Qed.

(** ** Sessions *)

Lemma run_book evs : ∀ w,
  Forall valid_event evs → book_ok w → book_ok (fst (run evs w)).
Proof.
  induction evs as [| ev evs IH]; intros w Hv Hb; simpl; [done |].
  apply Forall_cons in Hv as [Hev Hevs].
  specialize (IH (final (handle ev w)) Hevs (handle_book ev w Hev Hb)).
  by destruct (run evs (final (handle ev w))).
Qed.

Lemma run_balance evs : ∀ w,
  Forall valid_event evs → book_ok w → (0 <= balance w)%Q →
  (0 <= balance (fst (run evs w)))%Q.
Proof.
  induction evs as [| ev evs IH]; intros w Hv Hb Hbal; simpl; [done |].
  apply Forall_cons in Hv as [Hev Hevs].
  specialize (IH (final (handle ev w)) Hevs (handle_book ev w Hev Hb)
                 (handle_balance ev w Hev Hb Hbal)).
  by destruct (run evs (final (handle ev w))).
Qed.

Lemma run_holdings evs : ∀ w,
  Forall valid_event evs → book_ok w → holdings_ok w →
  holdings_ok (fst (run evs w)).
Proof.
  induction evs as [| ev evs IH]; intros w Hv Hb Hok; simpl; [done |].
  apply Forall_cons in Hv as [Hev Hevs].
  specialize (IH (final (handle ev w)) Hevs (handle_book ev w Hev Hb)
                 (proj1 (handle_holdings ev w Hev Hb Hok))).
  by destruct (run evs (final (handle ev w))).
Qed.

Lemma run_cash evs : ∀ w,
  forallb (fun ev => negb (is_reset ev)) evs = true →
  (balance (fst (run evs w)) == balance w + net_cash (snd (run evs w)))%Q.
Proof.
  induction evs as [| ev evs IH]; intros w Hnr; simpl.
  - ring.
  - simpl in Hnr. apply andb_true_iff in Hnr as [Hev Hevs].
    apply negb_true_iff in Hev.
    specialize (IH (final (handle ev w)) Hevs).
    destruct (run evs (final (handle ev w))) as [w' ts]. simpl in *.
    rewrite IH, (handle_cash ev w Hev), net_cash_app. ring.
Qed.

Lemma net_cash_buys ts :
  forallb (fun t => negb (is_sell_fill t)) ts = true →
  (net_cash ts == - total_cost (buy_fills ts))%Q.
Proof.
  induction ts as [| t ts IH]; simpl; [done |].
  intros H. apply andb_true_iff in H as [Ht Hts]. specialize (IH Hts).
  destruct t as [[|] q sym p | q sym p | q sym p | | | | |]; simpl in *;
    try done; rewrite IH; ring.
Qed.

(** ** The cash balance *)



(** ** Positive quantities *)

(** C7. After every click sequence with widget inputs, from a
    well-formed ledger, every stored position has a positive quantity
    and the pending orders keep quantities of at least 1; each single
    handler preserves this and raises nothing; a sell of the whole held
    quantity, on either path, deletes the symbol's entry. *)
Theorem holdings_positive evs w :
  Forall valid_event evs → book_ok w → holdings_ok w →
  (holdings_ok (fst (run evs w)) ∧ book_ok (fst (run evs w)))
  ∧ (∀ ev, valid_event ev →
           holdings_ok (final (handle ev w)) ∧ raised (handle ev w) = None)
  ∧ (∀ symbol q p w',
        sells w symbol q p w' → Position.qty (holding symbol w) = q →
        portfolio w' !! symbol = None).
Proof.
  intros Hv Hb Hok. split; [| split].
  - split; [by apply run_holdings | by apply run_book].
  - intros ev Hev. by apply handle_holdings.
  - intros symbol q p w' Hs Hq.
    destruct (sells_inv _ _ _ _ _ Hs) as (_ & -> & _).
    rewrite Hq, Z.sub_diag. simpl. apply lookup_delete_eq.
Qed.

Lemma holdings_positive_witness :
  let evs := [ExecuteTrade "X.BO" 100 10 Buy Market 0;
              ExecuteTrade "X.BO" 130 10 Sell Market 0] in
  holdings_ok (fst (run evs fresh)) ∧ book_ok (fst (run evs fresh)).
Proof.
  intros evs.
  assert (Hv : Forall valid_event evs).
  { repeat constructor; simpl; (lia || discriminate). }
  assert (Hb : book_ok fresh) by constructor.
  assert (Hok : holdings_ok fresh) by apply map_Forall_empty.
  exact (proj1 (holdings_positive evs fresh Hv Hb Hok)).
Defined.

(** ** Reset *)

(** C8. Whatever the world before, "Reset Portfolio" leaves the balance
    at 1,000,000, no holdings, no pending orders and no files; a second
    reset changes nothing. *)
Theorem reset_restores w :
  let w' := final (reset_portfolio w) in
  balance w' = 1000000%Q
  ∧ portfolio w' = ∅
  ∧ load_limit_orders w' = []
  ∧ w' = fresh
  ∧ reset_portfolio w' = reset_portfolio w.
Proof. done. Qed.

(** ** Limit-order submission *)

(** C9, the claim as stated fails: a limit price of 0 passes the
    "Target Price" input ([min_value=0.0]) and the order is stored. *)
Lemma limit_price_zero_accepted :
  let o := execute_trade "X.BO" 100 1 Buy Limit 0 fresh in
  valid_event (ExecuteTrade "X.BO" 100 1 Buy Limit 0)
  ∧ ¬ (0 < 0)%Q
  ∧ raised o = None
  ∧ load_limit_orders (final o) = [Order.mk "X.BO" Buy 1 0]
  ∧ load_limit_orders (final o) ≠ load_limit_orders fresh.
Proof.
  simpl. split; [split; [lia | discriminate] |].
  split; [by intros H; apply Qlt_irrefl in H |]. done.
Qed.

(** C9, amended. The handler validates no order parameter itself.  With
    a positive live price it appends the order, whatever its quantity and
    limit price, at the end of the pending list, leaves balance and
    holdings alone and checks neither; without one it submits nothing. *)
Theorem limit_submission symbol ltp qty act target_price w :
  let o := execute_trade symbol ltp qty act Limit target_price w in
  raised o = None
  ∧ portfolio (final o) = portfolio w
  ∧ balance (final o) = balance w
  ∧ ((0 < ltp)%Q →
     load_limit_orders (final o)
     = load_limit_orders w ++ [Order.mk symbol act qty target_price]
     ∧ shown o = [ToastLimitPlaced act qty symbol target_price])
  ∧ (¬ (0 < ltp)%Q → final o = w ∧ shown o = [ToastNoValidPrice]).
Proof.
  unfold execute_trade. destruct (Qeq_bool ltp 0 || Qle_bool ltp 0) eqn:Hg; simpl.
  - do 3 (split; [done |]). split; [| done].
    intros H. apply no_price_guard in H. by rewrite H in Hg.
  - apply no_price_guard in Hg. do 3 (split; [done |]). split; [done |].
    intros H. by destruct H.
Qed.

Lemma limit_submission_witness :
  load_limit_orders (final (execute_trade "X.BO" 100 7 Sell Limit (105 # 1) fresh))
  = [Order.mk "X.BO" Sell 7 (105 # 1)].
Proof.
  destruct (limit_submission "X.BO" 100 7 Sell (105 # 1) fresh)
    as (_ & _ & _ & Happend & _).
  exact (proj1 (Happend eq_refl)).
Defined.

(** ** Settlement sweeps *)

Lemma condition_met_spec act ltp target_price :
  condition_met act ltp target_price = true ↔
  match act with
  | Buy => (ltp <= target_price)%Q
  | Sell => (target_price <= ltp)%Q
  end.
Proof.
  unfold condition_met. destruct act; simpl.
  - by rewrite orb_false_r, Qle_bool_iff.
  - by rewrite Qle_bool_iff.
Qed.

Lemma fillable_condition order ltp w :
  fillable order ltp w = true →
  ∃ p, ltp = Some p ∧
       condition_met (Order.action_ order) p (Order.target_price order) = true.
Proof.
  unfold fillable. destruct ltp as [p|]; [| done].
  intros H. apply andb_true_iff in H as [H _]. by exists p.
Qed.

(** Every "Executed" toast of the loop comes from an order of the list
    whose quote met its limit condition; the price of the toast is that
    quote. *)
Lemma for_orders_toasts feed orders : ∀ i s s' r,
  for_orders feed i orders s = (s', r) →
  ∀ a q t p, ToastLimitExecuted a q t p ∈ toasted s' →
    ToastLimitExecuted a q t p ∈ toasted s
    ∨ ∃ (j : nat) target_price,
        orders !! j = Some (Order.mk t a q target_price) ∧
        feed (i + j)%nat t = Some p ∧
        condition_met a p target_price = true.
Proof.
  induction orders as [| o os IH]; intros i s s' r; simpl.
  - intros [= <- <-] a q t p Hin. by left.
  - destruct (process_order _ _ _) as [e | s1] eqn:Hp.
    { intros [= <- <-] a q t p Hin. by left. }
    intros H a q t p Hin.
    destruct (IH _ _ _ _ H a q t p Hin) as [Hin1 | (j & tp & Hj & Hq & Hc)].
    + destruct (process_order_inr _ _ _ _ Hp)
        as [[_ ->] | (p' & Hq & Hf & _ & _ & Ht)]; [by left |].
      rewrite Ht in Hin1. apply elem_of_app in Hin1 as [Hin1 | Hin1]; [by left |].
      apply list_elem_of_singleton in Hin1. injection Hin1 as -> -> -> ->.
      right. exists 0%nat, (Order.target_price o).
      rewrite Nat.add_0_r. split; [by destruct o |]. split; [done |].
      destruct (fillable_condition _ _ _ Hf) as (p'' & Hq' & Hc).
      rewrite Hq in Hq'. by injection Hq' as <-.
    + right. exists (S j), tp. by rewrite Nat.add_succ_r.
Qed.

Lemma select_lookup {A} b (flags : list bool) (l : list A) (j : nat) x :
  l !! j = Some x → flags !! j = Some b → x ∈ select b flags l.
Proof.
  revert l j. induction flags as [| f flags IH]; intros [| y l] [| j]; simpl;
    try done.
  - intros [= ->] [= ->]. rewrite eqb_reflx. by left.
  - intros Hl Hf. specialize (IH _ _ Hl Hf).
    destruct (eqb f b); [by right | done].
Qed.

Lemma observed_lookup feed orders : ∀ i (j : nat) order,
  orders !! j = Some order →
  observed feed i orders !! j = Some (order, feed (i + j)%nat (Order.ticker order)).
Proof.
  induction orders as [| o os IH]; intros i [| j] order; simpl; try done.
  - intros [= ->]. by rewrite Nat.add_0_r.
  - intros H. rewrite (IH (S i) j order H). by rewrite Nat.add_succ_r.
Qed.

Lemma fill_toasts_elem order p l :
  (order, Some p) ∈ l →
  ToastLimitExecuted (Order.action_ order) (Order.qty order) (Order.ticker order) p
  ∈ fill_toasts l.
Proof.
  intros H. unfold fill_toasts. apply list_elem_of_omap.
  by exists (order, Some p).
Qed.

Lemma for_orders_prefix feed os1 os2 i s s' :
  for_orders feed i (os1 ++ os2) s = (s', None) →
  ∃ s1, for_orders feed i os1 s = (s1, None) ∧
        for_orders feed (i + length os1) os2 s1 = (s', None).
Proof.
  rewrite for_orders_app.
  destruct (for_orders feed i os1 s) as [s1 [e|]]; [done |]. by exists s1.
Qed.

(** The state in which the [j]-th order is evaluated is the one left by
    the [j] orders before it, and evaluating it gives the state in which
    the next one is evaluated. *)
Lemma for_orders_step feed orders i s s' (j : nat) order :
  for_orders feed i orders s = (s', None) →
  orders !! j = Some order →
  ∃ sj sj',
    for_orders feed i (take j orders) s = (sj, None) ∧
    process_order order (feed (i + j)%nat (Order.ticker order)) sj = inr sj' ∧
    for_orders feed i (take (S j) orders) s = (sj', None).
Proof.
  intros H Hj.
  rewrite <- (take_drop (S j) orders) in H.
  apply for_orders_prefix in H as (sj' & Hpre & _).
  rewrite (take_S_r _ _ _ Hj) in Hpre |- *.
  pose proof Hpre as Hpre'.
  apply for_orders_prefix in Hpre' as (sj & Hj0 & Hlast).
  exists sj, sj'. split; [done |]. split; [| done].
  rewrite length_take_le in Hlast by (apply Nat.lt_le_incl; by eapply lookup_lt_Some).
  simpl in Hlast. destruct (process_order _ _ _); [done |]. by injection Hlast as ->.
Qed.

Lemma blocked_unfillable order ltp w :
  blocked order ltp w → fillable order ltp w = false.
Proof.
  unfold blocked, fillable. destruct ltp as [p|]; [| done].
  destruct (Order.action_ order); intros H.
  - apply Qle_bool_false in H. rewrite H. apply andb_false_r.
  - rewrite Z.geb_leb. apply Z.leb_gt in H. rewrite H. apply andb_false_r.
Qed.

(** A sweep over a well-formed ledger returns, and [flags] tells for each
    order whether it was executed. *)
Lemma sweep_trace feed w :
  holdings_ok w → book_ok w →
  let orders := load_limit_orders w in
  let start := Sweep w [] false [] in
  ∃ s flags,
    for_orders feed 0%nat orders start = (s, None) ∧
    process_limit_orders feed w
    = (Outcome (save_limit_orders (remaining s)
                  (if changed s then save_session (session s) else session s))
               (toasted s) None,
       Some (changed s)) ∧
    length flags = length orders ∧
    remaining s = select false flags orders ∧
    toasted s = fill_toasts (select true flags (observed feed 0%nat orders)) ∧
    ∀ (j : nat) order, orders !! j = Some order →
      ∃ sj, for_orders feed 0%nat (take j orders) start = (sj, None) ∧
            flags !! j = Some (fillable order (feed j (Order.ticker order)) (session sj)).
Proof.
  intros Hok Hbook orders start.
  destruct (for_orders_holdings feed orders 0%nat start Hbook Hok) as (s & Hloop & _).
  destruct (for_orders_trace feed orders _ _ _ Hloop) as (flags & Hlen & Hrem & Ht & Hpt).
  exists s, flags. split; [done |]. split.
  { unfold process_limit_orders. fold orders. fold start. by rewrite Hloop. }
  by repeat split.
Qed.

(** C4. An order leaves the pending list in an iteration only when a
    quote was observed and met its limit condition ([ltp <= L] for a buy,
    [ltp >= L] for a sell), and the ledger is then updated with the
    observed quote, not with [L].  In a sweep every "Executed" toast
    names an order of the book, the quote observed for it and a met
    condition; an order whose quote is unavailable or misses the
    condition is still pending afterwards. *)
Theorem limit_trigger :
  (∀ order ltp s s',
      process_order order ltp s = inr s' → remaining s' = remaining s →
      ∃ p, ltp = Some p ∧
           toasted s' = toasted s ++
             [ToastLimitExecuted (Order.action_ order) (Order.qty order)
                                 (Order.ticker order) p] ∧
           let h := holding (Order.ticker order) (session s) in
           match Order.action_ order with
           | Buy =>
               (p <= Order.target_price order)%Q ∧
               balance (session s')
               = (balance (session s) - Zmulq (Order.qty order) p)%Q ∧
               portfolio (session s') !! Order.ticker order
               = Some (Position.mk (Position.qty h + Order.qty order)
                         ((Zmulq (Position.qty h) (Position.avg_price h)
                           + Zmulq (Order.qty order) p)
                          / inject_Z (Position.qty h + Order.qty order))%Q)
           | Sell =>
               (Order.target_price order <= p)%Q ∧
               balance (session s')
               = (balance (session s) + Zmulq (Order.qty order) p)%Q
           end)
  ∧ (∀ feed w a q t p,
        ToastLimitExecuted a q t p ∈ shown (fst (process_limit_orders feed w)) →
        ∃ (j : nat) target_price,
          load_limit_orders w !! j = Some (Order.mk t a q target_price) ∧
          feed j t = Some p ∧
          match a with
          | Buy => (p <= target_price)%Q
          | Sell => (target_price <= p)%Q
          end)
  ∧ (∀ feed w (j : nat) order,
        holdings_ok w → book_ok w →
        load_limit_orders w !! j = Some order →
        (∀ p, feed j (Order.ticker order) = Some p →
              match Order.action_ order with
              | Buy => (Order.target_price order < p)%Q
              | Sell => (p < Order.target_price order)%Q
              end) →
        order ∈ load_limit_orders (final (fst (process_limit_orders feed w)))).
Proof.
  split; [| split].
  - intros order ltp s s' Hp Hrem.
    destruct (process_order_inr _ _ _ _ Hp) as [[_ ->] | (p & -> & Hf & _ & _ & Ht)].
    { simpl in Hrem. apply (f_equal length) in Hrem.
      rewrite length_app in Hrem. simpl in Hrem. lia. }
    exists p. split; [done |]. split; [done |].
    destruct (fillable_condition _ _ _ Hf) as (p' & [= <-] & Hc).
    apply condition_met_spec in Hc.
    destruct (process_order_fill _ _ _ _ Hp) as [-> | (p' & [= <-] & _ & _ & Hfill)].
    { by destruct (keep_pending_toasted _ _ _ _ _ _ _ eq_refl Ht). }
    simpl. destruct (Order.action_ order).
    + destruct (buys_inv _ _ _ _ _ (or_intror Hfill)) as (_ & _ & -> & -> & _).
      by rewrite lookup_insert_eq.
    + by destruct (sells_inv _ _ _ _ _ (or_intror Hfill)) as (_ & _ & _ & -> & _).
  - intros feed w a q t p Hin.
    destruct (process_limit_orders_loop feed w) as (s & r & Hloop & Hs & _).
    rewrite Hs in Hin.
    destruct (for_orders_toasts _ _ _ _ _ _ Hloop a q t p Hin)
      as [Hnil | (j & tp & Hj & Hq & Hc)].
    { by apply elem_of_nil in Hnil. }
    exists j, tp. split; [done |]. split; [done |]. by apply condition_met_spec.
  - intros feed w j order Hok Hbook Hj Hmiss.
    destruct (sweep_trace feed w Hok Hbook) as (s & flags & _ & -> & _ & -> & _ & Hpt).
    simpl. destruct (Hpt j order Hj) as (sj & _ & Hflag).
    apply (select_lookup false flags _ j); [done |]. rewrite Hflag. f_equal.
    apply not_true_is_false. intros Hf.
    destruct (fillable_condition _ _ _ Hf) as (p & Hq & Hc).
    apply condition_met_spec in Hc. specialize (Hmiss p Hq).
    destruct (Order.action_ order); by apply Qlt_not_le in Hmiss.
Qed.

Lemma demo_world_ok : holdings_ok demo_world ∧ book_ok demo_world.
Proof.
  split; [apply map_Forall_empty |].
  unfold book_ok. repeat constructor; simpl; lia.
Qed.

Lemma limit_trigger_witness :
  Order.mk "X.BO" Buy 10 101
  ∈ load_limit_orders
      (final (fst (process_limit_orders (const_feed [("X.BO"%string, 150%Q)])
                     demo_world))).
Proof.
  apply (proj2 (proj2 limit_trigger) (const_feed [("X.BO"%string, 150%Q)])
           demo_world 0%nat (Order.mk "X.BO" Buy 10 101)
           (proj1 demo_world_ok) (proj2 demo_world_ok) eq_refl).
  intros p [= <-]. reflexivity.
Defined.

(** ** Failures *)



(** ** Each order settles at most once *)

(** The flag returned by [process_limit_orders] says whether anything was
    executed. *)
Lemma for_orders_changed feed orders : ∀ i s s' r,
  for_orders feed i orders s = (s', r) →
  changed s = bool_decide (toasted s ≠ []) →
  changed s' = bool_decide (toasted s' ≠ []).
Proof.
  induction orders as [| o os IH]; intros i s s' r; simpl.
  - by intros [= <- <-].
  - destruct (process_order _ _ _) as [e | s1] eqn:Hp; [by intros [= <- <-] |].
    intros H Hinv. apply (IH _ _ _ _ H).
    destruct (process_order_inr _ _ _ _ Hp) as [[_ ->] | (p & _ & _ & _ & -> & ->)];
      [done |].
    symmetry. apply bool_decide_eq_true. by destruct (toasted s).
Qed.



(** The example of the specification: three market orders on a fresh
    installation. *)
Example spec_example :
  let '(w, ts) := run [ExecuteTrade "X.BO" 100 10 Buy Market 0;
                       ExecuteTrade "X.BO" 120 5 Buy Market 0;
                       ExecuteTrade "X.BO" 130 15 Sell Market 0] fresh in
  (balance w == 1000350)%Q ∧ portfolio w = ∅ ∧
  ts = [ToastBought 10 "X.BO" 100; ToastBought 5 "X.BO" 120; ToastSold 15 "X.BO" 130].
Proof. vm_compute. repeat split; congruence. Qed.

(** The demo sweep executes the first order and keeps the two blocked
    ones, in their order. *)
Example demo_sweep :
  let o := fst (process_limit_orders demo_feed demo_world) in
  load_limit_orders (final o)
  = [Order.mk "Y.BO" Sell 5 40; Order.mk "X.BO" Buy 20000 101]
  ∧ shown o = [ToastLimitExecuted Buy 10 "X.BO" 100]
  ∧ (balance (final o) == 999000)%Q.
Proof. vm_compute. repeat split; congruence. Qed.

(** * Around the ledger *)

(** ** The start-up probe *)

Lemma wait_tries_spec get tries : ∀ i,
  let quiet k := ∀ j, (i ≤ j < k)%nat → get j ≠ Status 200 ∧ get j ≠ OtherError in
  match wait_tries get i tries with
  | WaitReturned true k => (i ≤ k < i + tries)%nat ∧ get k = Status 200 ∧ quiet k
  | WaitReturned false k => k = (i + tries)%nat ∧ quiet k
  | WaitRaised k => (i ≤ k < i + tries)%nat ∧ get k = OtherError ∧ quiet k
  end.
Proof.
  induction tries as [| tries IH]; intros i quiet; simpl.
  - split; [lia |]. intros j Hj. lia.
  - assert (Hstep : ∀ k, get i ≠ Status 200 → get i ≠ OtherError →
              (∀ j, (S i ≤ j < k)%nat → get j ≠ Status 200 ∧ get j ≠ OtherError) →
              quiet k).
    { intros k H1 H2 Hq j Hj. destruct (decide (j = i)) as [-> | Hne]; [done |].
      apply Hq. lia. }
    specialize (IH (S i)). simpl in IH.
    destruct (get i) as [code | |] eqn:Hg.
    + destruct (Z.eqb_spec code 200) as [-> | Hc].
      * split; [lia |]. split; [done |]. intros j Hj. lia.
      * assert (H1 : Status code ≠ Status 200) by congruence.
        destruct (wait_tries get (S i) tries) as [[|] k | k].
        -- destruct IH as (Hk & Hgk & Hq). split; [lia |]. split; [done |].
           by apply Hstep.
        -- destruct IH as (Hk & Hq). split; [lia |]. by apply Hstep.
        -- destruct IH as (Hk & Hgk & Hq). split; [lia |]. split; [done |].
           by apply Hstep.
    + destruct (wait_tries get (S i) tries) as [[|] k | k].
      * destruct IH as (Hk & Hgk & Hq). split; [lia |]. split; [done |].
        by apply Hstep.
      * destruct IH as (Hk & Hq). split; [lia |]. by apply Hstep.
      * destruct IH as (Hk & Hgk & Hq). split; [lia |]. split; [done |].
        by apply Hstep.
    + split; [lia |]. split; [done |]. intros j Hj. lia.
Qed.

(** X1. [wait_for_streamlit] probes at most 20 times.  It returns [True]
    at the first probe answered with status 200, having slept once per
    earlier probe; it returns [False] after exactly 20 probes and 20
    sleeps when every one of them was a connection error or another
    status; an exception other than [ConnectionError] ends it at the
    probe that raised it. *)
Theorem wait_for_streamlit_bounded get :
  let quiet k := ∀ j, (j < k)%nat → get j ≠ Status 200 ∧ get j ≠ OtherError in
  match wait_for_streamlit get with
  | WaitReturned true k => (k < 20)%nat ∧ get k = Status 200 ∧ quiet k
  | WaitReturned false k => k = 20%nat ∧ quiet k
  | WaitRaised k => (k < 20)%nat ∧ get k = OtherError ∧ quiet k
  end.
Proof.
  intros quiet. pose proof (wait_tries_spec get max_tries 0%nat) as H.
  unfold wait_for_streamlit. cbv zeta in H.
  destruct (wait_tries get 0 max_tries) as [[|] k | k].
  - destruct H as (Hk & Hg & Hq). unfold max_tries in Hk.
    split; [lia |]. split; [done |]. intros j Hj. apply Hq. lia.
  - destruct H as (Hk & Hq). split; [done |]. intros j Hj. apply Hq. lia.
  - destruct H as (Hk & Hg & Hq). unfold max_tries in Hk.
    split; [lia |]. split; [done |]. intros j Hj. apply Hq. lia.
Qed.

(** ** The index summary *)

Lemma Qtruediv_inl x y e : Qtruediv x y = inl e ↔ (y == 0)%Q ∧ e = ZeroDivisionError.
Proof.
  unfold Qtruediv. destruct (Qeq_bool y 0) eqn:Hy.
  - apply Qeq_bool_iff in Hy. split; [by intros [= <-] | by intros [_ ->]].
  - split; [done |]. intros [Hz _]. apply Qeq_bool_iff in Hz. congruence.
Qed.



(** ** The trade tab *)

Lemma execute_trade_toasts symbol ltp qty act ot target_price w :
  (0 < ltp)%Q →
  ToastNoValidPrice ∉ shown (execute_trade symbol ltp qty act ot target_price w).
Proof.
  intros Hp. apply no_price_guard in Hp. unfold execute_trade. rewrite Hp.
  destruct ot, act; simpl;
    repeat match goal with
           | |- context [if ?b then _ else _] => destruct b
           | |- context [match ?x with inl _ => _ | inr _ => _ end] => destruct x
           end; simpl;
    intros H; repeat (apply elem_of_cons in H as [H | H]; [done |]);
    by apply elem_of_nil in H.
Qed.

(** X3. Nothing can be traded or submitted without a positive live
    price: when the quote lookup fails, has no price or gives a price
    that is not positive, a run of the trade tab changes nothing and
    shows nothing; and the handler's own "no valid price" message is
    never shown, the form being drawn only under a positive price. *)
Theorem trade_needs_live_price symbol info qty act ot target_price clicked w :
  let o := trade_tab symbol info qty act ot target_price clicked w in
  (ToastNoValidPrice ∉ shown o)
  ∧ (¬ (0 < live_price info)%Q → o = Outcome w [] None)
  ∧ ((∀ p, info ≠ QuotePrice p) → o = Outcome w [] None).
Proof.
  intros o. subst o. unfold trade_tab.
  destruct (Qgt_bool (live_price info) 0) eqn:Hg.
  - apply Qgt_bool_true in Hg. split; [| split].
    + destruct clicked; [by apply execute_trade_toasts |]. simpl. apply not_elem_of_nil.
    + intros H. by destruct H.
    + intros H. destruct info as [| | | p]; simpl in Hg;
        try (by apply Qlt_irrefl in Hg). by destruct (H p).
  - split; [apply not_elem_of_nil |]. by split.
Qed.

Lemma trade_needs_live_price_witness :
  trade_tab "X.BO" QuoteNull 10 Buy Market 0 true fresh = Outcome fresh [] None.
Proof.
  apply (proj2 (proj2 (trade_needs_live_price "X.BO" QuoteNull 10 Buy Market 0 true fresh))).
  intros p. discriminate.
Defined.

(** ** The portfolio table *)



(** ** The display code of a ticker *)

Lemma prefix_cons a s1 b s2 :
  String.prefix (String a s1) (String b s2)
  = if Ascii.ascii_dec a b then String.prefix s1 s2 else false.
Proof. reflexivity. Qed.

Lemma append_cons c s1 s2 : (String c s1 ++ s2)%string = String c (s1 ++ s2).
Proof. reflexivity. Qed.

Lemma prefix_BO_app c rest :
  String.prefix ".BO" (String c rest) = false →
  String.prefix ".BO" (String c (rest ++ ".BO")) = false.
Proof.
  rewrite !prefix_cons. destruct (Ascii.ascii_dec _ c); [| done].
  destruct rest as [| b rest]; [intros _; reflexivity |].
  rewrite append_cons, !prefix_cons. destruct (Ascii.ascii_dec _ b); [| done].
  destruct rest as [| o rest]; [intros _; reflexivity |].
  rewrite append_cons, !prefix_cons. destruct (Ascii.ascii_dec _ o); [| done].
  by destruct rest.
Qed.

(** X5. Stripping the exchange suffix undoes adding it: for a code
    in which [".BO"] does not occur, the display code of [code ++ ".BO"]
    is [code]. *)
Theorem display_code_round_trip code :
  occurs ".BO" code = false →
  display_code (code ++ ".BO") = code.
Proof.
  unfold display_code, str_replace.
  induction code as [| c rest IH]; intros Hocc; [done |].
  change (occurs ".BO" (String c rest))
    with (String.prefix ".BO" (String c rest) || occurs ".BO" rest) in Hocc.
  apply orb_false_iff in Hocc as [Hpre Hrest].
  change (String c rest ++ ".BO")%string with (String c (rest ++ ".BO")).
  change (replace_from ".BO" "" 0 (String c (rest ++ ".BO")))
    with (if String.prefix ".BO" (String c (rest ++ ".BO"))
          then ("" ++ replace_from ".BO" "" (String.length ".BO" - 1) (rest ++ ".BO"))%string
          else String c (replace_from ".BO" "" 0 (rest ++ ".BO"))).
  rewrite (prefix_BO_app _ _ Hpre). by rewrite (IH Hrest).
Qed.

Lemma display_code_round_trip_witness : display_code ("RELIANCE" ++ ".BO") = "RELIANCE"%string.
Proof. apply display_code_round_trip. reflexivity. Defined.

(** ** Exceptions of a sweep *)



Lemma process_order_session_files order ltp s s' :
  process_order order ltp s = inr s' →
  PORTFOLIO_FILE (session s') = PORTFOLIO_FILE (session s)
  ∧ BALANCE_FILE (session s') = BALANCE_FILE (session s)
  ∧ LIMIT_ORDER_FILE (session s') = LIMIT_ORDER_FILE (session s).
Proof.
  destruct (fillable order ltp (session s)) eqn:Hf.
  - destruct ltp as [p|]; [| done]. destruct (Order.action_ order) eqn:Ha.
    + rewrite (process_order_buy _ _ _ Ha Hf). simpl.
      destruct (truediv _ _); [done |]. by intros [= <-].
    + rewrite (process_order_sell _ _ _ Ha Hf). simpl.
      destruct (if Z.gtb _ 0 then _ else _); [done |]. by intros [= <-].
  - rewrite (process_order_unfillable _ _ _ Hf). by intros [= <-].
Qed.

Lemma for_orders_session_files feed orders : ∀ i s s' r,
  for_orders feed i orders s = (s', r) →
  PORTFOLIO_FILE (session s') = PORTFOLIO_FILE (session s)
  ∧ BALANCE_FILE (session s') = BALANCE_FILE (session s)
  ∧ LIMIT_ORDER_FILE (session s') = LIMIT_ORDER_FILE (session s).
Proof.
  induction orders as [| o os IH]; intros i s s' r; simpl.
  - by intros [= <- <-].
  - destruct (process_order _ _ _) as [e | s1] eqn:Hp; [by intros [= <- <-] |].
    intros H. destruct (IH _ _ _ _ H) as (-> & -> & ->).
    by apply (process_order_session_files _ _ _ _ Hp).
Qed.

(** X7. A sweep that ends in an exception returns nothing and writes no
    file: the pending list on disk still holds every order, also those
    the sweep had executed before the exception, and the saved portfolio
    and balance are the old ones, while the balance in the session has
    moved by the executions announced. *)
Theorem aborted_sweep_writes_nothing feed w e :
  let o := fst (process_limit_orders feed w) in
  raised o = Some e →
  snd (process_limit_orders feed w) = None
  ∧ PORTFOLIO_FILE (final o) = PORTFOLIO_FILE w
  ∧ BALANCE_FILE (final o) = BALANCE_FILE w
  ∧ LIMIT_ORDER_FILE (final o) = LIMIT_ORDER_FILE w
  ∧ (balance (final o) == balance w + net_cash (shown o))%Q.
Proof.
  intros o. subst o. unfold process_limit_orders.
  destruct (for_orders _ _ _ _) as [s [e'|]] eqn:Hloop; simpl; [| done].
  intros _. destruct (for_orders_session_files _ _ _ _ _ _ Hloop) as (-> & -> & ->).
  destruct (for_orders_cash _ _ _ _ _ _ Hloop) as (ts & Ht & Hb).
  simpl in Ht, Hb. rewrite Ht. by repeat split.
Qed.

Lemma aborted_sweep_writes_nothing_witness :
  let w := save_limit_orders [Order.mk "X.BO" Buy 10 101; Order.mk "Y.BO" Sell 0 40] fresh in
  let o := fst (process_limit_orders demo_feed w) in
  shown o = [ToastLimitExecuted Buy 10 "X.BO" 100]
  ∧ LIMIT_ORDER_FILE (final o) = LIMIT_ORDER_FILE w.
Proof.
  intros w o. split; [reflexivity |].
  by destruct (aborted_sweep_writes_nothing demo_feed w (KeyError "Y.BO") eq_refl)
    as (_ & _ & _ & Hfile & _).
Defined.

(** ** Sweeps that execute nothing *)

Lemma for_orders_quiet feed orders : ∀ i s s' r,
  for_orders feed i orders s = (s', r) →
  changed s' = false →
  changed s = false ∧ session s' = session s ∧ toasted s' = toasted s
  ∧ (r = None → remaining s' = remaining s ++ orders).
Proof.
  induction orders as [| o os IH]; intros i s s' r; simpl.
  - intros [= <- <-] Hc. rewrite app_nil_r. by repeat split.
  - destruct (process_order _ _ _) as [e | s1] eqn:Hp.
    { intros [= <- <-] Hc. by repeat split. }
    intros H Hc. destruct (IH _ _ _ _ H Hc) as (Hc1 & -> & -> & Hrem).
    destruct (process_order_inr _ _ _ _ Hp) as [[_ ->] | (p & _ & _ & _ & Hch & _)];
      [| congruence].
    simpl in *. repeat split; try done.
    intros Hr. rewrite (Hrem Hr), <- app_assoc. done.
Qed.

(** X8. When a sweep reports that nothing was executed, nothing was:
    no toast is shown, and the world is the old one with the same
    pending list written back. *)
Theorem sweep_reports_nothing feed w :
  snd (process_limit_orders feed w) = Some false →
  fst (process_limit_orders feed w)
  = Outcome (save_limit_orders (load_limit_orders w) w) [] None.
Proof.
  unfold process_limit_orders.
  destruct (for_orders _ _ _ _) as [s [e|]] eqn:Hloop; simpl; [done |].
  intros [= Hc]. destruct (for_orders_quiet _ _ _ _ _ _ Hloop Hc) as (_ & Hs & Ht & Hr).
  simpl in *. by rewrite Hc, Hs, Ht, (Hr eq_refl).
Qed.

Lemma for_orders_unmet feed orders : ∀ i s,
  (∀ (j : nat) order p, orders !! j = Some order →
     feed (i + j)%nat (Order.ticker order) = Some p →
     condition_met (Order.action_ order) p (Order.target_price order) = false) →
  for_orders feed i orders s
  = (Sweep (session s) (remaining s ++ orders) (changed s) (toasted s), None).
Proof.
  induction orders as [| o os IH]; intros i s Hun; simpl.
  - rewrite app_nil_r. by destruct s.
  - rewrite process_order_unfillable.
    + rewrite IH; [simpl; by rewrite <- app_assoc |].
      intros j order p Hj Hq. apply (Hun (S j) order p Hj).
      by rewrite Nat.add_succ_r.
    + unfold fillable. destruct (feed i (Order.ticker o)) as [p|] eqn:Hq; [| done].
      rewrite (Hun 0%nat o p eq_refl); [done |]. by rewrite Nat.add_0_r.
Qed.

(** X9. If for every pending order the quote is unavailable or does not
    meet the order's limit, the sweep executes nothing: it reports
    [False], shows no toast, and leaves balance, holdings, their files
    and the pending list as they were. *)
Theorem sweep_without_triggers feed w :
  (∀ (j : nat) order p, load_limit_orders w !! j = Some order →
     feed j (Order.ticker order) = Some p →
     match Order.action_ order with
     | Buy => (Order.target_price order < p)%Q
     | Sell => (p < Order.target_price order)%Q
     end) →
  process_limit_orders feed w
  = (Outcome (save_limit_orders (load_limit_orders w) w) [] None, Some false).
Proof.
  intros Hun. unfold process_limit_orders. rewrite for_orders_unmet; [done |].
  intros j order p Hj Hq. specialize (Hun j order p Hj Hq).
  apply not_true_is_false. rewrite condition_met_spec.
  destruct (Order.action_ order); by apply Qlt_not_le.
Qed.

Lemma sweep_without_triggers_witness :
  process_limit_orders (fun _ _ => None) demo_world
  = (Outcome (save_limit_orders (load_limit_orders demo_world) demo_world) [] None,
     Some false).
Proof. apply sweep_without_triggers. intros j order p _ H. discriminate H. Defined.

Lemma sweep_reports_nothing_witness :
  fst (process_limit_orders (fun _ _ => None) demo_world)
  = Outcome (save_limit_orders (load_limit_orders demo_world) demo_world) [] None.
Proof. apply sweep_reports_nothing. reflexivity. Defined.

(** ** Restarting the application *)

Lemma start_session_saved w : start_session (save_session w) = save_session w.
Proof. by destruct w. Qed.

Lemma start_session_limit orders w :
  start_session w = w →
  start_session (save_limit_orders orders w) = save_limit_orders orders w.
Proof. destruct w. unfold start_session, save_limit_orders. simpl. by intros [= -> ->]. Qed.

Lemma execute_trade_restart symbol ltp qty act ot target_price w :
  start_session w = w →
  start_session (final (execute_trade symbol ltp qty act ot target_price w))
  = final (execute_trade symbol ltp qty act ot target_price w).
Proof.
  intros Hw. unfold execute_trade.
  destruct (Qeq_bool ltp 0 || Qle_bool ltp 0); [done |].
  destruct ot; [by apply start_session_limit |]. destruct act.
  - destruct (Qgt_bool _ _); [done |]. destruct (truediv _ _); [done |].
    apply start_session_saved.
  - destruct (Z.gtb _ _); [done |]. simpl.
    destruct (if Z.eqb _ 0 then _ else _); [done |]. apply start_session_saved.
Qed.

Lemma handle_restart ev w :
  valid_event ev → book_ok w → holdings_ok w →
  start_session w = w →
  start_session (final (handle ev w)) = final (handle ev w).
Proof.
  destruct ev as [symbol ltp qty act ot tp | feed |]; simpl; intros Hv Hbook Hok Hw.
  - by apply execute_trade_restart.
  - destruct (load_limit_orders w) eqn:Hb0; [done |]. clear Hb0.
    destruct (sweep_trace feed w Hok Hbook) as (s & flags & Hloop & -> & _).
    simpl. destruct (changed s) eqn:Hc.
    + apply start_session_limit, start_session_saved.
    + destruct (for_orders_quiet _ _ _ _ _ _ Hloop Hc) as (_ & -> & _).
      by apply start_session_limit.
  - done.
Qed.


Lemma const_feed_ok quotes :
  Forall (fun q => (0 < snd q)%Q) quotes → feed_ok (const_feed quotes).
Proof.
  intros Hall i ticker p. unfold const_feed.
  induction Hall as [| [t q] quotes Hq _ IH]; simpl; [done |].
  destruct (String.eqb t ticker); [by intros [= <-] | done].
Qed.


(** ** Shares and what they cost *)

Lemma buys_holding w symbol q p w' sym :
  buys w symbol q p w' →
  Position.qty (holding sym w')
  = Position.qty (holding sym w) + (if bool_decide (symbol = sym) then q else 0).
Proof.
  intros Hb. destruct (buys_inv _ _ _ _ _ Hb) as (_ & _ & Hp & _).
  unfold holding at 1. rewrite Hp. case_bool_decide as Hs.
  - subst sym. by rewrite lookup_insert_eq.
  - rewrite lookup_insert_ne by done. unfold holding. lia.
Qed.

Lemma sells_holding w symbol q p w' sym :
  sells w symbol q p w' →
  Position.qty (holding sym w')
  = Position.qty (holding sym w) + (if bool_decide (symbol = sym) then - q else 0).
Proof.
  intros Hs. destruct (sells_inv _ _ _ _ _ Hs) as (_ & Hp & _).
  unfold holding at 1. rewrite Hp. case_bool_decide as Hsym.
  - subst sym.
    destruct (Z.eqb_spec (Position.qty (holding symbol w) - q) 0) as [Hz | Hz].
    + rewrite lookup_delete_eq. simpl. lia.
    + rewrite lookup_insert_eq. simpl. lia.
  - destruct (Z.eqb _ 0).
    + rewrite lookup_delete_ne by done. unfold holding. lia.
    + rewrite lookup_insert_ne by done. unfold holding. lia.
Qed.

Lemma net_shares_app sym ts1 ts2 :
  net_shares sym (ts1 ++ ts2) = net_shares sym ts1 + net_shares sym ts2.
Proof. induction ts1 as [| t ts1 IH]; simpl; [done |]. rewrite IH. lia. Qed.

Lemma for_orders_shares sym feed orders : ∀ i s s' r,
  for_orders feed i orders s = (s', r) →
  ∃ ts, toasted s' = toasted s ++ ts ∧
        Position.qty (holding sym (session s'))
        = Position.qty (holding sym (session s)) + net_shares sym ts.
Proof.
  induction orders as [| o os IH]; intros i s s' r; simpl.
  - intros [= <- <-]. exists []. simpl. rewrite app_nil_r. split; [done | lia].
  - destruct (process_order _ _ _) as [e | s1] eqn:Hp.
    { intros [= <- <-]. exists []. simpl. rewrite app_nil_r. split; [done | lia]. }
    intros H. destruct (IH _ _ _ _ H) as (ts2 & Ht2 & Hq2).
    destruct (process_order_fill _ _ _ _ Hp) as [-> | (p & _ & _ & Ht & Hfill)].
    + exists ts2. by split.
    + eexists (_ :: ts2). rewrite Ht2, Ht, <- app_assoc. split; [done |].
      rewrite Hq2. simpl. destruct (Order.action_ o).
      * rewrite (buys_holding _ _ _ _ _ sym (or_intror Hfill)). lia.
      * rewrite (sells_holding _ _ _ _ _ sym (or_intror Hfill)). lia.
Qed.


Lemma execute_trade_shares sym symbol ltp qty act ot target_price w :
  let o := execute_trade symbol ltp qty act ot target_price w in
  Position.qty (holding sym (final o))
  = Position.qty (holding sym w) + net_shares sym (shown o).
Proof.
  intros o. subst o. unfold execute_trade.
  destruct (Qeq_bool ltp 0 || Qle_bool ltp 0); [simpl; lia |].
  destruct ot; [unfold holding; simpl; lia |]. destruct act.
  - destruct (Qgt_bool _ _); [simpl; lia |].
    destruct (truediv _ _); [simpl; lia |].
    unfold holding at 1. simpl. case_bool_decide as Hs.
    + subst sym. rewrite lookup_insert_eq. simpl. lia.
    + rewrite lookup_insert_ne by done. unfold holding. lia.
  - destruct (Z.gtb _ _); [simpl; lia |]. simpl.
    destruct (Z.eqb_spec (Position.qty (holding symbol w) - qty) 0) as [Hz | Hz].
    + unfold del_position.
      destruct (portfolio w !! symbol) eqn:Hl; [| simpl; lia].
      unfold holding at 1. simpl. case_bool_decide as Hs.
      * subst sym. rewrite lookup_delete_eq. simpl. lia.
      * rewrite lookup_delete_ne by done. unfold holding. lia.
    + unfold holding at 1. simpl. case_bool_decide as Hs.
      * subst sym. rewrite lookup_insert_eq. simpl. lia.
      * rewrite lookup_insert_ne by done. unfold holding. lia.
Qed.

Lemma handle_shares sym ev w :
  is_reset ev = false →
  Position.qty (holding sym (final (handle ev w)))
  = Position.qty (holding sym w) + net_shares sym (shown (handle ev w)).
Proof.
  destruct ev as [symbol ltp qty act ot tp | feed |]; [| | done]; intros _; simpl.
  - apply execute_trade_shares.
  - destruct (load_limit_orders w) eqn:Hb0; [simpl; lia |].
    destruct (process_limit_orders_loop feed w) as (s & r & Hloop & -> & _ & Hp & _).
    destruct (for_orders_shares sym _ _ _ _ _ _ Hloop) as (ts & Ht & Hq).
    simpl in Ht, Hq. rewrite Ht. unfold holding at 1. rewrite Hp. exact Hq.
Qed.

(** X11. Shares are conserved: over any sequence of clicks without a
    reset, whatever the inputs, the quantity held of a symbol (0 when it
    has no entry) is the quantity held before plus the shares bought
    minus the shares sold in the executions announced for that symbol. *)
Theorem share_conservation sym evs : ∀ w,
  forallb (fun ev => negb (is_reset ev)) evs = true →
  Position.qty (holding sym (fst (run evs w)))
  = Position.qty (holding sym w) + net_shares sym (snd (run evs w)).
Proof.
  induction evs as [| ev evs IH]; intros w Hnr; simpl; [lia |].
  simpl in Hnr. apply andb_true_iff in Hnr as [Hev Hevs].
  apply negb_true_iff in Hev. specialize (IH (final (handle ev w)) Hevs).
  destruct (run evs (final (handle ev w))) as [w' ts]. simpl in *.
  rewrite IH, (handle_shares sym ev w Hev), net_shares_app. lia.
Qed.

Lemma share_conservation_witness :
  let evs := [ExecuteTrade "X.BO" 100 10 Buy Market 0;
              ExecuteTrade "X.BO" 130 4 Sell Market 0] in
  Position.qty (holding "X.BO" (fst (run evs fresh)))
  = Position.qty (holding "X.BO" fresh) + net_shares "X.BO" (snd (run evs fresh)).
Proof. intros evs. apply share_conservation. reflexivity. Defined.

Lemma inject_Z_nonzero n : n ≠ 0 → ¬ (inject_Z n == 0)%Q.
Proof.
  intros Hn E. change 0%Q with (inject_Z 0) in E.
  by apply (proj1 (inject_Z_injective _ _)) in E.
Qed.



(** X13. An executed buy, on either path, leaves the entry of every
    other symbol and the pending orders untouched. *)
Theorem buy_frame w symbol q p w' :
  buys w symbol q p w' →
  (∀ other, other ≠ symbol → portfolio w' !! other = portfolio w !! other)
  ∧ LIMIT_ORDER_FILE w' = LIMIT_ORDER_FILE w.
Proof.
  intros Hb. destruct (buys_inv _ _ _ _ _ Hb) as (_ & _ & -> & _ & ->).
  split; [| done]. intros other Hne. by rewrite lookup_insert_ne.
Qed.

Lemma buy_frame_witness :
  let w1 := final (execute_trade "X.BO" 100 10 Buy Market 0 fresh) in
  LIMIT_ORDER_FILE w1 = LIMIT_ORDER_FILE fresh.
Proof.
  intros w1. apply (buy_frame fresh "X.BO" 10 100%Q w1).
  left. exists 0%Q. reflexivity.
Defined.

(** ** The two execution paths *)

Lemma app_singleton_neq {A} (l : list A) x : l ++ [x] ≠ l.
Proof.
  intros H. apply (f_equal length) in H. rewrite length_app in H. simpl in H. lia.
Qed.

(** X14. The trade tab and the sweep, written separately, agree: at a
    positive price that meets the limit, a market order and a limit
    order for the same symbol, side and quantity pass or fail the same
    ledger check, raise the same exception, and leave the same
    portfolio and balance. *)
Theorem paths_agree symbol q p act target_price market_target s :
  (0 < p)%Q →
  condition_met act p target_price = true →
  let w := session s in
  let order := Order.mk symbol act q target_price in
  let o := execute_trade symbol p q act Market market_target w in
  match process_order order (Some p) s with
  | inl e => raised o = Some e ∧ final o = w
  | inr s' =>
      raised o = None
      ∧ portfolio (final o) = portfolio (session s')
      ∧ balance (final o) = balance (session s')
      ∧ (shown o = [match act with
                    | Buy => ToastBought q symbol p
                    | Sell => ToastSold q symbol p
                    end]
         ↔ remaining s' = remaining s)
  end.
Proof.
  intros Hp Hc w order o. subst w order o.
  unfold execute_trade, process_order. simpl.
  apply no_price_guard in Hp. rewrite Hp, Hc. destruct act.
  - unfold Qgt_bool. destruct (Qle_bool (Zmulq q p) (balance (session s))); simpl.
    + destruct (truediv _ _); [done |]. simpl. by repeat split.
    + repeat split; try done. intros H. by apply app_singleton_neq in H.
  - rewrite (Z.geb_leb (Position.qty (holding symbol (session s))) q).
    destruct (Z.gtb_spec q (Position.qty (holding symbol (session s)))) as [Hgt | Hle].
    + rewrite (proj2 (Z.leb_gt q _)) by lia. simpl.
      repeat split; try done. intros H. by apply app_singleton_neq in H.
    + rewrite (proj2 (Z.leb_le q _)) by lia. simpl.
      destruct (Z.eqb_spec (Position.qty (holding symbol (session s)) - q) 0) as [Hz | Hz],
               (Z.gtb_spec (Position.qty (holding symbol (session s)) - q) 0) as [Hg | Hg];
        try lia.
      * destruct (del_position _ _); [done |]. simpl. by repeat split.
      * simpl. by repeat split.
Qed.

Lemma paths_agree_witness :
  match process_order (Order.mk "X.BO" Buy 10 101) (Some 100%Q) (Sweep fresh [] false []) with
  | inl e => False
  | inr s' =>
      portfolio (final (execute_trade "X.BO" 100 10 Buy Market 0 fresh))
      = portfolio (session s')
  end.
Proof.
  pose proof (paths_agree "X.BO" 10 100%Q Buy 101%Q 0%Q (Sweep fresh [] false [])
                eq_refl eq_refl) as H.
  cbv zeta in H.
  destruct (process_order (Order.mk "X.BO" Buy 10 101) (Some 100%Q)
              (Sweep fresh [] false [])) as [e | s'].
  - destruct H as [H _]. discriminate H.
  - by destruct H as (_ & H & _).
Defined.

(** ** Competing orders *)

(** X15. Arrival order decides between two buy orders that the balance
    cannot both pay: with a book of two triggered buys, the first
    affordable and the two together not, the sweep executes the first at
    its quote and leaves exactly the second pending. *)
Theorem first_come_first_served feed w o1 o2 p1 p2 :
  load_limit_orders w = [o1; o2] →
  holdings_ok w →
  Order.action_ o1 = Buy → Order.action_ o2 = Buy →
  1 <= Order.qty o1 →
  feed 0%nat (Order.ticker o1) = Some p1 →
  feed 1%nat (Order.ticker o2) = Some p2 →
  (p1 <= Order.target_price o1)%Q →
  (Zmulq (Order.qty o1) p1 <= balance w)%Q →
  (balance w < Zmulq (Order.qty o1) p1 + Zmulq (Order.qty o2) p2)%Q →
  let o := fst (process_limit_orders feed w) in
  snd (process_limit_orders feed w) = Some true
  ∧ raised o = None
  ∧ load_limit_orders (final o) = [o2]
  ∧ shown o = [ToastLimitExecuted Buy (Order.qty o1) (Order.ticker o1) p1]
  ∧ balance (final o) = (balance w - Zmulq (Order.qty o1) p1)%Q.
Proof.
  intros Hbook Hok Ha1 Ha2 Hq1 Hf1 Hf2 Hc1 Hb1 Hb2 o. subst o.
  unfold process_limit_orders. rewrite Hbook. simpl. rewrite Hf1.
  assert (Hfill : fillable o1 (Some p1) w = true).
  { unfold fillable. rewrite Ha1. apply andb_true_iff. split.
    - by apply condition_met_spec.
    - by apply Qle_bool_iff. }
  rewrite (process_order_buy o1 p1 (Sweep w [] false []) Ha1 Hfill). simpl.
  pose proof (holding_nonneg (Order.ticker o1) w Hok) as Hh.
  rewrite truediv_inr by lia. rewrite Hf2.
  rewrite process_order_unfillable.
  - simpl. done.
  - unfold fillable. rewrite Ha2. simpl. apply andb_false_iff. right.
    apply Qle_bool_false. lra.
Qed.

Lemma first_come_first_served_witness :
  let w := save_limit_orders [Order.mk "X.BO" Buy 6000 101; Order.mk "X.BO" Buy 5000 101]
                             fresh in
  load_limit_orders (final (fst (process_limit_orders demo_feed w)))
  = [Order.mk "X.BO" Buy 5000 101].
Proof.
  intros w.
  assert (Hok : holdings_ok w) by apply map_Forall_empty.
  assert (Hq1 : 1 <= 6000) by lia.
  assert (Hc1 : (100 <= 101)%Q) by discriminate.
  assert (Hb1 : (Zmulq 6000 100 <= balance w)%Q) by (vm_compute; discriminate).
  assert (Hb2 : (balance w < Zmulq 6000 100 + Zmulq 5000 100)%Q) by (vm_compute; reflexivity).
  exact (proj1 (proj2 (proj2
           (first_come_first_served demo_feed w
              (Order.mk "X.BO" Buy 6000 101) (Order.mk "X.BO" Buy 5000 101) 100%Q 100%Q
              eq_refl Hok eq_refl eq_refl Hq1 eq_refl eq_refl Hc1 Hb1 Hb2)))).
Defined.

(** ** The average cost is an average *)

Lemma inject_Z_pos n : 0 < n → (0 < inject_Z n)%Q.
Proof. intros H. change 0%Q with (inject_Z 0). by rewrite <- Zlt_Qlt. Qed.

Lemma weighted_average_between (h q a p lo hi : Q) :
  (0 < h)%Q → (0 < q)%Q →
  (lo <= a)%Q → (lo <= p)%Q → (a <= hi)%Q → (p <= hi)%Q →
  (lo <= (h * a + q * p) / (h + q) <= hi)%Q.
Proof.
  intros Hh Hq Hla Hlp Hah Hph.
  assert (Hsum : (0 < h + q)%Q) by lra.
  split.
  - apply Qle_shift_div_l; [done |]. nra.
  - apply Qle_shift_div_r; [done |]. nra.
Qed.


